(** * copile: the safety gate, the generation loop and the cache store

    A shallow embedding of [src/copile/copilation.py] (with the exception
    classes of [copilation_errors.py] and the prompts of
    [system_messages.py]).  Python [str] values are Rocq strings, Python
    sets are duplicate-free lists, the syntax tree of [ast.parse] is an
    inductive type, and the effects of the program (calls to the language
    model, the cache file, [print]) are threaded through a small state and
    exception monad.  What lies outside the repository (the language model,
    the Python parser and interpreter, [inspect], the formatters, the two
    denylist files) is a variable of the section the code lives in.

    Taken for granted: the environment is set up (the API key is there,
    so [OpenAI()] does not raise, the directory [copilations] can be
    made, [isort] and [black] read and write the file they are given);
    running a generated source has no effect on the cache files; the
    language model answers with a text. *)

From Stdlib Require Import String Ascii List ZArith Lia Bool DecimalString.
Import ListNotations.
Open Scope string_scope.

(* ================================================================== *)
(** ** Python strings *)
(* ================================================================== *)

Module PyStr.

(** [len(s)] *)
Definition len (s : string) : Z := Z.of_nat (String.length s).

(** [s.startswith(prefix)] *)
Fixpoint startswith (s prefix : string) {struct prefix} : bool :=
  match prefix with
  | EmptyString => true
  | String p prefix' =>
      match s with
      | EmptyString => false
      | String c s' => Ascii.eqb c p && startswith s' prefix'
      end
  end.

(** [sub in s] *)
Fixpoint contains (s sub : string) : bool :=
  startswith s sub
  || match s with
     | EmptyString => false
     | String _ s' => contains s' sub
     end.

(** [s[n:]] and [s[:n]] for [0 <= n] *)
Fixpoint drop (n : nat) (s : string) : string :=
  match n, s with
  | S n', String _ s' => drop n' s'
  | _, _ => s
  end.

Fixpoint take (n : nat) (s : string) : string :=
  match n, s with
  | S n', String c s' => String c (take n' s')
  | _, _ => EmptyString
  end.

(** [s.endswith(suffix)] *)
Definition endswith (s suffix : string) : bool :=
  (String.length suffix <=? String.length s)%nat
  && String.eqb (drop (String.length s - String.length suffix) s) suffix.

(** [s[:-k]]: for [k = 0] this is [s[:0]], the empty string; a [k]
    beyond the length also gives the empty string. *)
Definition drop_last (k : nat) (s : string) : string :=
  match k with
  | O => EmptyString
  | _ => take (String.length s - k) s
  end.

(** [c.isspace()] for the code points below 256. *)
Definition isspace (c : ascii) : bool :=
  let n := nat_of_ascii c in
  ((9 <=? n) && (n <=? 13) || (28 <=? n) && (n <=? 32)
   || (n =? 133) || (n =? 160))%nat.

Fixpoint lstrip (s : string) : string :=
  match s with
  | String c s' => if isspace c then lstrip s' else s
  | EmptyString => EmptyString
  end.

Definition reverse (s : string) : string :=
  string_of_list_ascii (rev (list_ascii_of_string s)).

Definition rstrip (s : string) : string := reverse (lstrip (reverse s)).

(** [s.strip()] *)
Definition strip (s : string) : string := rstrip (lstrip s).

(** [s.split(sep)] for a non-empty [sep] (Python raises [ValueError] on
    an empty one; the program only splits on [", "] and on a newline).
    The text is scanned left to right; [skip] counts the characters of a
    separator that was just matched and [cur] holds, reversed, the
    characters of the current field. *)
Fixpoint split_from (sep s : string) (skip : nat) (cur : list ascii)
  : list string :=
  match s with
  | EmptyString => [string_of_list_ascii (rev cur)]
  | String c s' =>
      match skip with
      | S k => split_from sep s' k cur
      | O =>
          if startswith s sep
          then string_of_list_ascii (rev cur)
                 :: split_from sep s' (String.length sep - 1) []
          else split_from sep s' 0 (c :: cur)
      end
  end.

Definition split (s sep : string) : list string := split_from sep s 0 [].

(** [f.readlines()]: the lines of a text with their newline kept (the
    text holds no carriage return, which text mode would translate). *)
Fixpoint readlines_from (s : string) (cur : list ascii) : list string :=
  match s with
  | EmptyString =>
      match cur with
      | [] => []
      | _ => [string_of_list_ascii (rev cur)]
      end
  | String c s' =>
      if Ascii.eqb c "010"
      then string_of_list_ascii (rev (c :: cur)) :: readlines_from s' []
      else readlines_from s' (c :: cur)
  end.

Definition readlines (s : string) : list string := readlines_from s [].

(** [n * c] for a one-character string. *)
Fixpoint repeat_char (c : ascii) (n : nat) : string :=
  match n with
  | O => EmptyString
  | S n' => String c (repeat_char c n')
  end.

(** *** Facts *)

Lemma startswith_app (p t : string) : startswith (p ++ t) p = true.
Proof.
  induction p as [|c p IH]; simpl; [reflexivity|].
  now rewrite Ascii.eqb_refl, IH.
Qed.

Lemma startswith_inv (s p : string) :
  startswith s p = true -> exists t, s = p ++ t.
Proof.
  revert s; induction p as [|c p IH]; intros s H; simpl in *.
  - now exists s.
  - destruct s as [|d s]; [discriminate|].
    apply andb_true_iff in H as [Hc Hs].
    apply Ascii.eqb_eq in Hc; subst d.
    destruct (IH _ Hs) as [t ->]. now exists t.
Qed.

Lemma startswith_iff (s p : string) :
  startswith s p = true <-> exists t, s = p ++ t.
Proof.
  split; [apply startswith_inv|].
  intros [t ->]. apply startswith_app.
Qed.

Lemma startswith_contains (s sub : string) :
  startswith s sub = true -> contains s sub = true.
Proof. intros H. destruct s; simpl; now rewrite H. Qed.

(** [sub in s] holds exactly when [sub] occurs somewhere in [s]. *)
Lemma contains_iff (s sub : string) :
  contains s sub = true <-> exists a b, s = a ++ sub ++ b.
Proof.
  split.
  - induction s as [|c s IH]; simpl; intros H.
    + rewrite orb_false_r in H.
      apply startswith_inv in H as [t Ht]. now exists EmptyString, t.
    + apply orb_true_iff in H as [H|H].
      * apply startswith_inv in H as [t Ht]. now exists EmptyString, t.
      * destruct (IH H) as (a & b & ->). now exists (String c a), b.
  - intros (a & b & ->).
    induction a as [|c a IH].
    + change (EmptyString ++ sub ++ b) with (sub ++ b).
      apply startswith_contains, startswith_app.
    + simpl. rewrite IH. apply orb_true_r.
Qed.

Lemma len_repeat_char (c : ascii) (n : nat) :
  len (repeat_char c n) = Z.of_nat n.
Proof.
  unfold len. f_equal. induction n; simpl; congruence.
Qed.

End PyStr.

(* ================================================================== *)
(** ** Python sets of strings *)
(* ================================================================== *)

(** A [set] of strings is a list without duplicates.  Python leaves the
    iteration order of a set unspecified; the model keeps the order of
    insertion, and the theorems below only speak of membership. *)
Module PySet.

Definition mem (x : string) (s : list string) : bool :=
  existsb (String.eqb x) s.

(** [s.add(x)] *)
Definition add (x : string) (s : list string) : list string :=
  if mem x s then s else s ++ [x].

(** [set(l)] *)
Definition of_list (l : list string) : list string :=
  fold_left (fun s x => add x s) l [].

(** [a - b] *)
Definition minus (a b : list string) : list string :=
  filter (fun x => negb (mem x b)) a.

(** Truth value of a collection: non-empty. *)
Definition nonempty {A : Type} (s : list A) : bool :=
  match s with
  | [] => false
  | _ :: _ => true
  end.

Lemma mem_iff (x : string) (s : list string) : mem x s = true <-> In x s.
Proof.
  unfold mem. rewrite existsb_exists. split.
  - intros (y & Hy & E). apply String.eqb_eq in E. now subst.
  - intros H. exists x. split; [assumption | apply String.eqb_refl].
Qed.

Lemma mem_false_iff (x : string) (s : list string) :
  mem x s = false <-> ~ In x s.
Proof.
  rewrite <- mem_iff. destruct (mem x s); split; congruence.
Qed.

Lemma in_add (x y : string) (s : list string) :
  In y (add x s) <-> y = x \/ In y s.
Proof.
  unfold add. destruct (mem x s) eqn:E.
  - apply mem_iff in E. split; [now right|]. intros [->|H]; assumption.
  - rewrite in_app_iff. simpl. split.
    + intros [H|[H|[]]]; [now right | now left].
    + intros [->|H]; [right; now left | now left].
Qed.

Lemma nodup_add (x : string) (s : list string) : NoDup s -> NoDup (add x s).
Proof.
  intros H. unfold add. destruct (mem x s) eqn:E; [assumption|].
  apply mem_false_iff in E.
  apply NoDup_rev in H. rewrite <- (rev_involutive (s ++ [x])).
  apply NoDup_rev. rewrite rev_app_distr. simpl.
  constructor; [now rewrite <- in_rev | assumption].
Qed.

Lemma in_fold_add (l s : list string) (y : string) :
  In y (fold_left (fun s x => add x s) l s) <-> In y l \/ In y s.
Proof.
  revert s. induction l as [|x l IH]; intros s; simpl.
  - tauto.
  - rewrite IH, in_add. intuition congruence.
Qed.

Lemma in_of_list (l : list string) (y : string) : In y (of_list l) <-> In y l.
Proof. unfold of_list. rewrite in_fold_add. simpl. tauto. Qed.

Lemma nodup_of_list (l : list string) : NoDup (of_list l).
Proof.
  unfold of_list.
  assert (G : forall s, NoDup s -> NoDup (fold_left (fun s x => add x s) l s)).
  { induction l as [|x l IH]; intros s Hs; simpl; [assumption|].
    apply IH, nodup_add, Hs. }
  apply G. constructor.
Qed.

Lemma in_minus (a b : list string) (y : string) :
  In y (minus a b) <-> In y a /\ ~ In y b.
Proof.
  unfold minus. rewrite filter_In, negb_true_iff, mem_false_iff. tauto.
Qed.

Lemma nodup_minus (a b : list string) : NoDup a -> NoDup (minus a b).
Proof. apply NoDup_filter. Qed.

Lemma nonempty_false {A : Type} (s : list A) : nonempty s = false <-> s = [].
Proof. destruct s; simpl; split; congruence. Qed.

Lemma nonempty_true {A : Type} (s : list A) : nonempty s = true <-> s <> [].
Proof. destruct s; simpl; split; congruence. Qed.

End PySet.

(* ================================================================== *)
(** ** The syntax tree of [ast.parse] *)
(* ================================================================== *)

Module PyAst.

(** The node classes the program tells apart, with their child nodes in
    the order of [ast.iter_child_nodes].  [Module] is the root that
    [ast.parse] returns; [Call] has its callee [func] as first child,
    then its arguments and keywords; [Other] stands for every other node
    class (statements, operators, [arguments], [AsyncFunctionDef], ...).
    The expression context of a [Name] or an [Attribute] ([Load],
    [Store], [Del]) is a leaf of its own class and is left out. *)
#[local] Unset Elimination Schemes.

Inductive ast : Type :=
| Module (body : list ast)
| FunctionDef (name : string) (children : list ast)
| ClassDef (name : string) (children : list ast)
| Call (func : ast) (args : list ast)
| Name (id : string)
| Attribute (value : ast) (attr : string)
| Other (children : list ast).

#[local] Set Elimination Schemes.

(** [ast.iter_child_nodes(node)] *)
Definition iter_child_nodes (node : ast) : list ast :=
  match node with
  | Module body => body
  | FunctionDef _ children => children
  | ClassDef _ children => children
  | Call func args => func :: args
  | Name _ => []
  | Attribute value _ => [value]
  | Other children => children
  end.

(** Induction over a tree through the children of each node. *)
Lemma children_ind (P : ast -> Prop)
  (step : forall node, Forall P (iter_child_nodes node) -> P node) :
  forall node, P node.
Proof.
  fix IH 1. intros node. apply step.
  destruct node as [body|n ch|n ch|f args|id|v a|ch]; simpl.
  - induction body as [|c l IHl]; constructor; [apply IH | exact IHl].
  - induction ch as [|c l IHl]; constructor; [apply IH | exact IHl].
  - induction ch as [|c l IHl]; constructor; [apply IH | exact IHl].
  - constructor; [apply IH|].
    induction args as [|c l IHl]; constructor; [apply IH | exact IHl].
  - constructor.
  - constructor; [apply IH | constructor].
  - induction ch as [|c l IHl]; constructor; [apply IH | exact IHl].
Qed.

(** Number of nodes of a tree. *)
Fixpoint size (node : ast) : nat :=
  let sizes := fix sizes (l : list ast) : nat :=
    match l with
    | [] => 0
    | c :: l' => size c + sizes l'
    end in
  match node with
  | Module body => S (sizes body)
  | FunctionDef _ children => S (sizes children)
  | ClassDef _ children => S (sizes children)
  | Call func args => S (size func + sizes args)
  | Name _ => 1
  | Attribute value _ => S (size value)
  | Other children => S (sizes children)
  end.

Definition sizes (l : list ast) : nat := list_sum (map size l).

Lemma size_children (node : ast) :
  size node = S (sizes (iter_child_nodes node)).
Proof.
  assert (E : forall l,
    (fix sizes (l : list ast) : nat :=
       match l with [] => 0 | c :: l' => size c + sizes l' end) l = sizes l).
  { induction l as [|c l IHl]; [reflexivity|].
    unfold sizes; simpl. now rewrite IHl. }
  destruct node; simpl; rewrite ?E; unfold sizes; simpl; lia.
Qed.

(** The first [FunctionDef] or [ClassDef] that [ast.walk] yields.
    [ast.walk] keeps a queue: it takes the node at the front, puts the
    node's children at the back and yields the node.  Each step takes
    one node off, so a queue is exhausted after as many steps as it
    holds nodes, descendants included. *)
Fixpoint first_def (fuel : nat) (todo : list ast) : option string :=
  match fuel with
  | O => None
  | S fuel' =>
      match todo with
      | [] => None
      | node :: rest =>
          match node with
          | FunctionDef name _ => Some name
          | ClassDef name _ => Some name
          | _ => first_def fuel' (rest ++ iter_child_nodes node)
          end
      end
  end.

Definition walk_first_def (tree : ast) : option string :=
  first_def (size tree) [tree].

(** Beyond the number of nodes in the queue, more fuel changes
    nothing: the walk has ended by then. *)
Lemma first_def_fuel (fuel extra : nat) (todo : list ast) :
  sizes todo <= fuel -> first_def (fuel + extra) todo = first_def fuel todo.
Proof.
  revert todo. induction fuel as [|fuel IH]; intros todo H.
  - destruct todo as [|node rest].
    + destruct extra; reflexivity.
    + unfold sizes in H. simpl in H. rewrite size_children in H. lia.
  - destruct todo as [|node rest]; [reflexivity|].
    assert (G : sizes (rest ++ iter_child_nodes node) <= fuel).
    { unfold sizes in *. simpl in H. rewrite size_children in H.
      rewrite map_app, list_sum_app. unfold sizes in H. lia. }
    simpl. destruct node; try reflexivity; apply IH, G.
Qed.

Lemma walk_first_def_fuel (extra : nat) (tree : ast) :
  first_def (size tree + extra) [tree] = walk_first_def tree.
Proof.
  apply first_def_fuel. unfold sizes. simpl. lia.
Qed.

(** [child.func.id] when [child] is a call of a bare name. *)
Definition bare_callee (child : ast) : option string :=
  match child with
  | Call (Name id) _ => Some id
  | _ => None
  end.

(** [f] is called by its bare name somewhere below [node]. *)
Inductive calls_bare (f : string) : ast -> Prop :=
| calls_child node child :
    In child (iter_child_nodes node) ->
    bare_callee child = Some f ->
    calls_bare f node
| calls_below node child :
    In child (iter_child_nodes node) ->
    calls_bare f child ->
    calls_bare f node.

End PyAst.

(* ================================================================== *)
(** ** More on Python strings: lines and white space *)
(* ================================================================== *)

Module PyText.

Import PyStr.

Definition nl : string := String "010" EmptyString.

(** [s.splitlines()]: the lines of a text without their line break.  The
    line breaks among the code points below 256 are the ones tested
    here; a carriage return followed by a newline is one break.  A last
    line that is empty is not a line. *)
Definition is_linebreak (c : ascii) : bool :=
  let n := nat_of_ascii c in
  ((10 <=? n) && (n <=? 13) || (28 <=? n) && (n <=? 30) || (n =? 133))%nat.

Fixpoint splitlines_from (s : string) (cur : list ascii) : list string :=
  match s with
  | EmptyString =>
      match cur with
      | [] => []
      | _ => [string_of_list_ascii (rev cur)]
      end
  | String c s' =>
      if is_linebreak c
      then string_of_list_ascii (rev cur)
             :: (if Ascii.eqb c "013"
                 then match s' with
                      | String d s'' =>
                          if Ascii.eqb d "010"
                          then splitlines_from s'' []
                          else splitlines_from s' []
                      | EmptyString => splitlines_from s' []
                      end
                 else splitlines_from s' [])
      else splitlines_from s' (c :: cur)
  end.

Definition splitlines (s : string) : list string := splitlines_from s [].

(** No character of [s] satisfies [p]. *)
Fixpoint free_of (p : ascii -> bool) (s : string) : bool :=
  match s with
  | EmptyString => true
  | String c s' => negb (p c) && free_of p s'
  end.

Definition is_newline (c : ascii) : bool := Ascii.eqb c "010".

(** The first character, and the last one, is no white space. *)
Definition starts_clean (s : string) : Prop :=
  match s with
  | EmptyString => True
  | String c _ => isspace c = false
  end.

Definition ends_clean (s : string) : Prop := starts_clean (reverse s).

(** *** Appending *)

Lemma append_nil_r (s : string) : s ++ EmptyString = s.
Proof. induction s as [|c s IH]; simpl; [reflexivity | now rewrite IH]. Qed.

Lemma append_assoc (a b c : string) : (a ++ b) ++ c = a ++ b ++ c.
Proof. induction a as [|x a IH]; simpl; [reflexivity | now rewrite IH]. Qed.

Lemma length_append (a b : string) :
  String.length (a ++ b) = (String.length a + String.length b)%nat.
Proof. induction a as [|x a IH]; simpl; [reflexivity | now rewrite IH]. Qed.

Lemma of_list_app (l1 l2 : list ascii) :
  string_of_list_ascii (l1 ++ l2)
  = string_of_list_ascii l1 ++ string_of_list_ascii l2.
Proof. induction l1 as [|c l IH]; simpl; [reflexivity | now rewrite IH]. Qed.

Lemma to_list_app (a b : string) :
  list_ascii_of_string (a ++ b)
  = (list_ascii_of_string a ++ list_ascii_of_string b)%list.
Proof. induction a as [|c a IH]; simpl; [reflexivity | now rewrite IH]. Qed.

Lemma concat_cons (x : string) (l : list string) :
  String.concat EmptyString (x :: l) = x ++ String.concat EmptyString l.
Proof.
  destruct l as [|y l]; simpl; [now rewrite append_nil_r | reflexivity].
Qed.

Lemma concat_app (a b : list string) :
  String.concat EmptyString (a ++ b)
  = String.concat EmptyString a ++ String.concat EmptyString b.
Proof.
  induction a as [|x a IH]; [reflexivity|].
  change ((x :: a) ++ b)%list with (x :: (a ++ b))%list.
  now rewrite !concat_cons, IH, append_assoc.
Qed.

Lemma drop_app (a b : string) : drop (String.length a) (a ++ b) = b.
Proof.
  induction a as [|c a IH]; simpl; [now destruct b | exact IH].
Qed.

Lemma take_app (a b : string) : take (String.length a) (a ++ b) = a.
Proof.
  induction a as [|c a IH]; simpl; [now destruct b | now rewrite IH].
Qed.

(** *** [readlines] *)



(** A line without a newline in it, followed by a newline, is the first
    line of the text it starts. *)
Lemma readlines_from_line (body rest : string) :
  free_of is_newline body = true ->
  forall cur : list ascii,
    readlines_from (body ++ nl ++ rest) cur
    = (string_of_list_ascii (rev cur) ++ body ++ nl) :: readlines rest.
Proof.
  induction body as [|c body IH]; intros F cur.
  - simpl. now rewrite of_list_app.
  - simpl in F. apply andb_true_iff in F as [Fc F].
    unfold is_newline in Fc. apply negb_true_iff in Fc.
    simpl. rewrite Fc, (IH F). simpl rev.
    rewrite of_list_app, append_assoc. reflexivity.
Qed.

Lemma readlines_lines (lines : list string) :
  Forall (fun line => free_of is_newline line = true) lines ->
  readlines (String.concat EmptyString (map (fun line => line ++ nl) lines))
  = map (fun line => line ++ nl) lines.
Proof.
  induction 1 as [|line lines F _ IH]; [reflexivity|].
  simpl map. rewrite concat_cons, append_assoc.
  unfold readlines at 1. rewrite (readlines_from_line _ _ F). simpl.
  now rewrite IH.
Qed.

(** *** [splitlines] and [split] on lines that end with a newline *)

Lemma splitlines_from_line (body rest : string) :
  free_of is_linebreak body = true ->
  forall cur : list ascii,
    splitlines_from (body ++ nl ++ rest) cur
    = (string_of_list_ascii (rev cur) ++ body) :: splitlines rest.
Proof.
  induction body as [|c body IH]; intros F cur.
  - simpl. now rewrite append_nil_r.
  - simpl in F. apply andb_true_iff in F as [Fc F].
    apply negb_true_iff in Fc.
    simpl. rewrite Fc, (IH F). simpl rev.
    rewrite of_list_app, append_assoc. reflexivity.
Qed.

Lemma splitlines_lines (lines : list string) :
  Forall (fun line => free_of is_linebreak line = true) lines ->
  splitlines (String.concat EmptyString (map (fun line => line ++ nl) lines))
  = lines.
Proof.
  induction 1 as [|line lines F _ IH]; [reflexivity|].
  simpl map. rewrite concat_cons, append_assoc.
  unfold splitlines at 1. rewrite (splitlines_from_line _ _ F). simpl.
  now rewrite IH.
Qed.



(** *** [strip] *)

Lemma reverse_involutive (s : string) : reverse (reverse s) = s.
Proof.
  unfold reverse.
  now rewrite list_ascii_of_string_of_list_ascii, rev_involutive,
    string_of_list_ascii_of_string.
Qed.

Lemma reverse_cons (c : ascii) (s : string) :
  reverse (String c s) = reverse s ++ String c EmptyString.
Proof. unfold reverse. simpl. now rewrite of_list_app. Qed.

Lemma reverse_snoc (c : ascii) (s : string) :
  reverse (s ++ String c EmptyString) = String c (reverse s).
Proof.
  unfold reverse. now rewrite to_list_app, rev_app_distr.
Qed.

Lemma lstrip_starts_clean (s : string) : starts_clean (lstrip s).
Proof.
  induction s as [|c s IH]; simpl; [exact I|].
  destruct (isspace c) eqn:E; [exact IH | exact E].
Qed.


Lemma lstrip_snoc_clean (c : ascii) (s : string) :
  isspace c = false ->
  lstrip (s ++ String c EmptyString) = lstrip s ++ String c EmptyString.
Proof.
  intros E. induction s as [|d s IH]; simpl; [now rewrite E|].
  destruct (isspace d); [exact IH | reflexivity].
Qed.

Lemma rstrip_ends_clean (s : string) : ends_clean (rstrip s).
Proof.
  unfold ends_clean, rstrip. rewrite reverse_involutive.
  apply lstrip_starts_clean.
Qed.


Lemma rstrip_snoc_space (c : ascii) (s : string) :
  isspace c = true -> rstrip (s ++ String c EmptyString) = rstrip s.
Proof.
  intros E. unfold rstrip. rewrite reverse_snoc. simpl. now rewrite E.
Qed.

Lemma rstrip_cons_clean (c : ascii) (s : string) :
  isspace c = false -> rstrip (String c s) = String c (rstrip s).
Proof.
  intros E. unfold rstrip.
  now rewrite reverse_cons, (lstrip_snoc_clean _ _ E), reverse_snoc.
Qed.

(** The result of [strip] neither starts nor ends with white space. *)
Lemma strip_clean (s : string) :
  starts_clean (strip s) /\ ends_clean (strip s).
Proof.
  unfold strip. split; [|apply rstrip_ends_clean].
  pose proof (lstrip_starts_clean s) as H.
  destruct (lstrip s) as [|c t]; [exact I|].
  simpl in H. rewrite (rstrip_cons_clean _ _ H). exact H.
Qed.


Lemma strip_cons_space (c : ascii) (s : string) :
  isspace c = true -> strip (String c s) = strip s.
Proof. intros E. unfold strip. simpl. now rewrite E. Qed.

Lemma strip_snoc_space (c : ascii) (s : string) :
  isspace c = true -> strip (s ++ String c EmptyString) = strip s.
Proof.
  intros E. unfold strip. induction s as [|d s IH].
  - simpl. now rewrite E.
  - simpl. destruct (isspace d) eqn:D; [exact IH|].
    change (String d (s ++ String c EmptyString))
      with (String d s ++ String c EmptyString).
    now apply rstrip_snoc_space.
Qed.

(** *** Texts as lists of lines *)














End PyText.

(* ================================================================== *)
(** ** copilation.py *)
(* ================================================================== *)

Module Copilation.

Import PyStr PySet PyAst.

(** *** Exceptions

    The five classes of [copilation_errors.py], with their constructor
    arguments (the message is formatted from them), and the built-in
    exceptions the program meets. *)
Inductive exn : Type :=
| BlackListedModuleImportError (source : string)
    (used_blacklisted_modules : list string)
| BlackListedFunctionUseError (source : string)
    (used_blacklisted_functions : list string)
| CopiledSourceDeemedUnsafeError (source : string) (issues : list string)
| CopiledSourceCodeNeedsModule (module_name : string)
| SpecificationUnclearError (callable_name : option string)
    (description : string)
| ModuleNotFoundError (name : string)
| FileNotFoundError
| SyntaxError
| AttributeError
| KeyError
| TypeError
| UnboundLocalError
| OtherException (label : string).

Inductive result (A : Type) : Type :=
| Return (a : A)
| Raise (e : exn).
Arguments Return {A} a.
Arguments Raise {A} e.

(** *** Requests to the language model *)

(** The prompts of [system_messages.py]. *)
Inductive system_message : Type :=
| copile_from_specification
| assess_specification
| recopile_from_specification
| check_for_safety_issues.

Inductive model_class : Type := fast | best.

Inductive model_name : Type :=
| gpt_4o_mini
| gpt_4o
| gpt_3_5_turbo_1106
| gpt_4_1106_preview.

Definition models (c : model_class) : model_name :=
  match c with
  | fast => gpt_4o_mini
  | best => gpt_4o
  end.

Definition model_max_tokens (m : model_name) : Z :=
  match m with
  | gpt_4o_mini => 128000
  | gpt_4o => 128000
  | gpt_3_5_turbo_1106 => 16000
  | gpt_4_1106_preview => 128000
  end%Z.

(** [int(model_max_tokens[model] * 0.9 * 4)].  For the budgets of the
    table the floating-point product is the exact one (460800.0 and
    57600.0), so the integer formula gives the same number. *)
Definition max_characters (m : model_name) : Z :=
  (model_max_tokens m * 9 * 4 / 10)%Z.

(** One call of [client.chat.completions.create]; the temperature is
    always the default 0. *)
Record request : Type := {
  comment : string;
  system : system_message;
  model : model_name
}.

(** *** The world the program acts on *)

(** What can be observed of a run: a round trip to the language model
    with its answer, a call of [_write_copiled_source] on a cache file,
    and a line printed. *)
Inductive event : Type :=
| Completion (q : request) (answer : string)
| WriteCopiled (filename source : string)
| Print (text : string).

(** The files by path, and the events so far, oldest first. *)
Record world : Type := {
  files : string -> option string;
  trace : list event
}.

(** The requests sent so far. *)
Definition asked (t : list event) : list request :=
  flat_map (fun e => match e with Completion q _ => [q] | _ => [] end) t.

(** A computation changes the world and returns or raises; the world
    reached when an exception is raised is kept, as in Python. *)
Definition M (A : Type) : Type := world -> result A * world.

Definition ret {A : Type} (a : A) : M A := fun w => (Return a, w).

Definition raise {A : Type} (e : exn) : M A := fun w => (Raise e, w).

Definition lift {A : Type} (r : result A) : M A := fun w => (r, w).

Definition bind {A B : Type} (m : M A) (k : A -> M B) : M B :=
  fun w =>
    match m w with
    | (Return a, w') => k a w'
    | (Raise e, w') => (Raise e, w')
    end.

(** [try: m  except e: handler e] *)
Definition try_except {A : Type} (m : M A) (handler : exn -> M A) : M A :=
  fun w =>
    match m w with
    | (Return a, w') => (Return a, w')
    | (Raise e, w') => handler e w'
    end.

(** The world after one more event. *)
Definition log (e : event) (w : world) : world :=
  {| files := files w; trace := trace w ++ [e] |}.

Definition emit (e : event) : M unit := fun w => (Return tt, log e w).

Definition read_file (path : string) : M string :=
  fun w =>
    match files w path with
    | Some text => (Return text, w)
    | None => (Raise FileNotFoundError, w)
    end.

Definition write_file (path text : string) : M unit :=
  fun w =>
    (Return tt,
     {| files := fun p => if String.eqb p path then Some text else files w p;
        trace := trace w |}).

Declare Scope py_scope.
Delimit Scope py_scope with py.
Notation "x <- m ;; k" := (bind m (fun x => k))
  (at level 61, m at next level, right associativity) : py_scope.
Notation "m ;; k" := (bind m (fun _ => k))
  (at level 61, right associativity) : py_scope.
Open Scope py_scope.

(** A value of the interpreter: [None] or another object. *)
Inductive pyval (pyobj : Type) : Type :=
| PyNone
| PyObject (o : pyobj).
Arguments PyNone {pyobj}.
Arguments PyObject {pyobj} o.

(** [str(x)] inside an f-string for a name that may be [None]. *)
Definition str_of_name (n : option string) : string :=
  match n with
  | Some s => s
  | None => "None"
  end.

Section Program.

#[local] Set Default Proof Using "Type".

(** *** What the program relies on from outside

    Objects of the interpreter and their truth value; the language
    model, whose answer may depend on the requests it has seen (the
    history grows with each request, so any sequence of answers is the
    run of such a function); the parser, giving the body of the
    [Module] or nothing on a syntax error; the interpreter run on a
    source ([exec]) or on the text of a file ([exec_module]), giving the
    names it binds; [inspect.getsource] and the line number of
    [inspect.getsourcelines] for a name defined in a file; the two
    formatters; and the lines of [module_blacklist.txt] and
    [function_blacklist.txt]. *)
Variable pyobj : Type.
Variable truthy : pyobj -> bool.
Variable chat_completion : list request -> request -> string.
Variable ast_parse : string -> option (list ast).
Variable exec : string -> result (string -> option (pyval pyobj)).
Variable exec_module : string -> result (string -> option (pyval pyobj)).
Variable inspect_getsource : string -> string -> result string.
Variable inspect_getsourcelines : string -> string -> result nat.
Variable isort black : string -> result string.
Variable module_blacklist_txt function_blacklist_txt : list string.

Definition bool_of (v : pyval pyobj) : bool :=
  match v with
  | PyNone => false
  | PyObject o => truthy o
  end.

(** **** [_get_completion] *)

(** The round trip itself. *)
Definition create (q : request) : M string :=
  fun w =>
    let answer := chat_completion (asked (trace w)) q in
    (Return answer, log (Completion q answer) w).

(** What the name [completion] is bound to at the last line: the
    placeholder text, a [str], or the object the client returned. *)
Inductive completion : Type :=
| Placeholder (text : string)
| ChatCompletion (content : string).

Definition decimal (n : Z) : string :=
  DecimalString.NilZero.string_of_int (Z.to_int n).

Definition placeholder_text (comment_len max : Z) : string :=
  "Could not get a completion because the number of characters ("
  ++ decimal comment_len ++ ") exceeds the max allowed ("
  ++ decimal max ++ ").".

(** [completion.choices[0].message.content]: a [str] has no attribute
    [choices]. *)
Definition choices_0_message_content (c : completion) : result string :=
  match c with
  | ChatCompletion content => Return content
  | Placeholder _ => Raise AttributeError
  end.

Definition _get_completion (comment : string)
    (system_message : system_message) (model_class : model_class)
  : M string :=
  let model := models model_class in
  let max_characters := max_characters model in
  completion <-
    (if (len comment >? max_characters)%Z
     then ret (Placeholder (placeholder_text (len comment) max_characters))
     else content <- create {| comment := comment;
                               system := system_message;
                               model := model |} ;;
          ret (ChatCompletion content)) ;;
  lift (choices_0_message_content completion).

(** **** [_strip_special] and [_clean_response] *)

Definition _strip_special (s : string) (prefixes suffixes : list string)
  : string :=
  let s :=
    fold_left
      (fun s prefix =>
         if startswith s prefix then drop (String.length prefix) s else s)
      prefixes s in
  fold_left
    (fun s suffix =>
       if endswith s suffix then drop_last (String.length suffix) s else s)
    suffixes s.

Definition _clean_response (response : string) : string :=
  let prefixes := ["'"; "```python"; "```json"] in
  let suffixes := ["'"; "```"] in
  strip (_strip_special response prefixes suffixes).

(** **** [_parse_callable_name] *)

Definition _parse_callable_name (source_code : string)
  : result (option string) :=
  match ast_parse source_code with
  | None => Raise SyntaxError
  | Some body => Return (walk_first_def (Module body))
  end.

(** **** [_get_existing_copilation] *)

(** [getattr(module, name)]; the name must be a [str]. *)
Definition getattr (module : string -> option (pyval pyobj))
    (name : option string) : result (pyval pyobj) :=
  match name with
  | None => Raise TypeError
  | Some n =>
      match module n with
      | Some v => Return v
      | None => Raise AttributeError
      end
  end.

Definition _get_existing_copilation (copilation_filename : string)
    (callable_name : option string) : M (pyval pyobj) :=
  fun w =>
    match files w copilation_filename with
    | None => (Return PyNone, w)
    | Some text =>
        match exec_module text with
        | Raise FileNotFoundError => (Return PyNone, w)
        | Raise e => (Raise e, w)
        | Return module =>
            match getattr module callable_name with
            | Raise AttributeError => (Return PyNone, w)
            | r => (r, w)
            end
        end
    end.

(** **** [_move_imports_to_top] *)

Definition is_import_line (line : string) : bool :=
  startswith (strip line) "import " || startswith (strip line) "from ".

Definition _move_imports_to_top (file_path : string) : M unit :=
  text <- read_file file_path ;;
  let lines := readlines text in
  let imports :=
    map (fun line => strip line ++ String "010" EmptyString)
        (filter is_import_line lines) in
  let others := filter (fun line => negb (is_import_line line)) lines in
  write_file file_path (String.concat EmptyString (imports ++ others)).

(** **** [_rewrite_copiled_source] *)

(** [inspect] numbers the lines of a file from 1.  The slice
    assignment puts the characters of the new text between the lines
    before the old definition and the lines after it, and
    [writelines] writes all of them one after the other. *)
Definition _rewrite_copiled_source (copilation_filename : string)
    (callable_name : option string) (new_source_code : string) : M unit :=
  text <- read_file copilation_filename ;;
  module <- lift (exec_module text) ;;
  _ <- lift (getattr module callable_name) ;;
  source_code <- lift (inspect_getsource text (str_of_name callable_name)) ;;
  let lines := readlines text in
  function_start_line <-
    lift (inspect_getsourcelines text (str_of_name callable_name)) ;;
  let function_end_line :=
    (function_start_line
     + List.length (split source_code (String "010" EmptyString)))%nat in
  write_file copilation_filename
    (String.concat EmptyString (firstn (function_start_line - 1) lines)
     ++ new_source_code
     ++ String "010" (String "010" (String "010" EmptyString))
     ++ String.concat EmptyString (skipn function_end_line lines)).

(** **** [_write_copiled_source] *)

(** [subprocess.run([tool, "--quiet", filename])]: the tool rewrites
    the file; the call raises when the tool cannot be started. *)
Definition run_tool (tool : string -> result string) (filename : string)
  : M unit :=
  text <- read_file filename ;;
  text' <- lift (tool text) ;;
  write_file filename text'.

(** [open(filename, 'a+').write(text)] *)
Definition append_file (filename text : string) : M unit :=
  fun w =>
    match files w filename with
    | Some old => write_file filename (old ++ text) w
    | None => write_file filename text w
    end.

Definition _write_copiled_source (copilation_filename : string)
    (callable_name : option string) (source_code : string) : M unit :=
  emit (WriteCopiled copilation_filename source_code) ;;
  existing <- _get_existing_copilation copilation_filename callable_name ;;
  (if bool_of existing
   then _rewrite_copiled_source copilation_filename callable_name
          source_code
   else append_file copilation_filename
          (String "010" (String "010" source_code))) ;;
  _move_imports_to_top copilation_filename ;;
  run_tool isort copilation_filename ;;
  run_tool black copilation_filename.

(** **** [_source_to_object] *)

Definition _source_to_object (source : string) : result (pyval pyobj) :=
  match _parse_callable_name source with
  | Raise e => Raise e
  | Return source_name =>
      match exec source with
      | Raise e => Raise e
      | Return globals_dict =>
          match source_name with
          | None => Raise KeyError
          | Some n =>
              match globals_dict n with
              | Some v => Return v
              | None => Raise KeyError
              end
          end
      end
  end.

(** **** [check_for_blacklisted_modules_used] *)

Definition imports_module (source_code module : string) : bool :=
  contains source_code ("import " ++ module)
  || contains source_code ("from " ++ module ++ " import").

Definition check_for_blacklisted_modules_used (source_code : string)
    (blacklist : list string) : list string :=
  fold_left
    (fun used_modules module =>
       if imports_module source_code module
       then (used_modules ++ [module])%list
       else used_modules)
    blacklist [].

(** **** [check_for_blacklisted_functions_used] *)

(** The test made on each child: a [Call] whose [func] is a [Name]
    with a blacklisted [id] adds that [id] to [found]. *)
Definition note_call (blacklisted_functions : list string) (child : ast)
    (found : list string) : list string :=
  match bare_callee child with
  | Some id => if mem id blacklisted_functions then add id found else found
  | None => found
  end.

Fixpoint find_function_calls (blacklisted_functions : list string)
    (node : ast) (found : list string) {struct node} : list string :=
  let visit := fun found child =>
    find_function_calls blacklisted_functions child
      (note_call blacklisted_functions child found) in
  match node with
  | Module body => fold_left visit body found
  | FunctionDef _ children => fold_left visit children found
  | ClassDef _ children => fold_left visit children found
  | Call func args => fold_left visit args (visit found func)
  | Name _ => found
  | Attribute value _ => visit found value
  | Other children => fold_left visit children found
  end.

Definition check_for_blacklisted_functions_used (source : string)
    (blacklisted_functions : list string) : result (list string) :=
  match ast_parse source with
  | None => Raise SyntaxError
  | Some body =>
      Return (find_function_calls blacklisted_functions (Module body) [])
  end.

(** **** [_review_safety] *)

(** [set(issues.split(', ')) - set(unsafe_overrides) - {'NONE'}] *)
Definition remaining_issues (answer : string)
    (unsafe_overrides : list string) : list string :=
  let issues := of_list (split answer ", ") in
  let issues := minus issues (of_list unsafe_overrides) in
  minus issues ["NONE"].

(** [list(set(load_list(file_path)) - set(module_whitelist))] and the
    same for the functions. *)
Definition module_blacklist (module_whitelist : list string)
  : list string :=
  minus (of_list module_blacklist_txt) (of_list module_whitelist).

Definition function_blacklist (function_whitelist : list string)
  : list string :=
  minus (of_list function_blacklist_txt) (of_list function_whitelist).

Definition safety_request (source : string) : request :=
  {| comment := source; system := check_for_safety_issues;
     model := models best |}.

Definition _review_safety (source : string)
    (module_whitelist function_whitelist unsafe_overrides : list string)
  : M unit :=
  let used_blacklisted_modules :=
    check_for_blacklisted_modules_used source
      (module_blacklist module_whitelist) in
  if nonempty used_blacklisted_modules
  then raise (BlackListedModuleImportError source used_blacklisted_modules)
  else
    used_blacklisted_functions <-
      lift (check_for_blacklisted_functions_used source
              (function_blacklist function_whitelist)) ;;
    if nonempty used_blacklisted_functions
    then raise (BlackListedFunctionUseError source
                  used_blacklisted_functions)
    else
      issues <- _get_completion source check_for_safety_issues best ;;
      let issues := remaining_issues issues unsafe_overrides in
      if nonempty issues
      then raise (CopiledSourceDeemedUnsafeError source issues)
      else ret tt.

(** **** [_review_specification] *)

Definition _review_specification (callable_name : option string)
    (specification : string) : M unit :=
  issues <- _get_completion specification assess_specification fast ;;
  if startswith issues "UNCLEAR"
  then raise (SpecificationUnclearError callable_name issues)
  else ret tt.

(** **** [_copiler] *)

(** A whitelist argument is a list or a single string, which is put
    in a list. *)
Inductive str_or_list : Type :=
| Str (s : string)
| StrList (l : list string).

Definition as_list (x : str_or_list) : list string :=
  match x with
  | Str s => [s]
  | StrList l => l
  end.

Definition max_tries : nat := 2.

Section Generation.

Variable specification : string.
Variable callable_name : option string.
Variable copilations_filename : string.
Variable module_whitelist function_whitelist unsafe_overrides
  : list string.

(** [f"The source returned from {model_class} was bad! ..."], with
    [model_class] being ['best']. *)
Definition bad_source_line : string :=
  "The source returned from best was bad! The source returned was:"
  ++ String "010" EmptyString.

(** The two [print] calls after the loop and [return None].  The
    name [copiled_source] is bound by the first pass of the loop. *)
Definition report_bad_source (copiled_source : option string)
  : M (pyval pyobj) :=
  emit (Print bad_source_line) ;;
  match copiled_source with
  | None => raise UnboundLocalError
  | Some source => emit (Print source) ;; ret PyNone
  end.

(** The body of the [try]. *)
Definition load_and_write (copiled_source : string) : M (pyval pyobj) :=
  func <- lift (_source_to_object copiled_source) ;;
  _write_copiled_source copilations_filename callable_name
    copiled_source ;;
  emit (Print ("The specification for '" ++ str_of_name callable_name
               ++ "()' was copiled in " ++ copilations_filename)) ;;
  ret func.

(** [while tries < max_tries and not stop_trying]; [stop_trying]
    stays [False].  Each pass that does not leave the function adds
    one to [tries], so [fuel] passes are enough when
    [max_tries - tries <= fuel]. *)
Fixpoint generation_loop (fuel tries : nat)
    (last_source : option string) : M (pyval pyobj) :=
  match fuel with
  | O => report_bad_source last_source
  | S fuel' =>
      if (tries <? max_tries)%nat
      then
        response <-
          _get_completion specification copile_from_specification best ;;
        let copiled_source := _clean_response response in
        _review_safety copiled_source module_whitelist
          function_whitelist unsafe_overrides ;;
        try_except (load_and_write copiled_source)
          (fun e =>
             match e with
             | ModuleNotFoundError name =>
                 raise (CopiledSourceCodeNeedsModule name)
             | _ =>
                 generation_loop fuel' (tries + 1) (Some copiled_source)
             end)
      else report_bad_source last_source
  end.

(** Lines 278 to 309: the branch taken on a cache miss or when
    regeneration is forced. *)
Definition generate : M (pyval pyobj) :=
  _review_specification callable_name specification ;;
  generation_loop max_tries 0 None.

End Generation.

(** [f"./copilations/{callable_name}.co.py"] *)
Definition copilations_path (callable_name : option string) : string :=
  "./copilations/" ++ str_of_name callable_name ++ ".co.py".

(** [specification] is the source of the decorated function without
    its first line; the directory [copilations] is taken to exist
    once line 272 has run. *)
Definition _copiler (specification : string) (force_copilation : bool)
    (module_whitelist function_whitelist unsafe_overrides : str_or_list)
  : M (pyval pyobj) :=
  let module_whitelist := as_list module_whitelist in
  let function_whitelist := as_list function_whitelist in
  let unsafe_overrides := as_list unsafe_overrides in
  callable_name <- lift (_parse_callable_name specification) ;;
  let copilations_filename := copilations_path callable_name in
  existing_copilation <-
    _get_existing_copilation copilations_filename callable_name ;;
  if force_copilation || negb (bool_of existing_copilation)
  then generate specification callable_name copilations_filename
         module_whitelist function_whitelist unsafe_overrides
  else ret existing_copilation.

(** [copile]: the decorator used bare, and the decorator with arguments. *)
Definition copile_bare (specification : string) : M (pyval pyobj) :=
  _copiler specification false (StrList []) (StrList []) (StrList []).

Definition copile (force_copilation : bool)
    (module_whitelist function_whitelist unsafe_overrides : str_or_list)
    (specification : string) : M (pyval pyobj) :=
  _copiler specification force_copilation module_whitelist
    function_whitelist unsafe_overrides.

(** *** What the theorems observe *)

(** The three requests the program sends. *)
Definition generate_request (specification : string) : request :=
  {| comment := specification; system := copile_from_specification;
     model := models best |}.

Definition clarity_request (specification : string) : request :=
  {| comment := specification; system := assess_specification;
     model := models fast |}.

(** A source with the answer of the classifier passes the gate: both
    scans, run on the blacklists without the whitelisted names, find
    nothing, and no label is left once the overrides and [NONE] are taken
    out. *)
Definition passes (module_whitelist function_whitelist unsafe_overrides
    : list string) (source answer : string) : Prop :=
  check_for_blacklisted_modules_used source (module_blacklist module_whitelist)
  = []
  /\ check_for_blacklisted_functions_used source
       (function_blacklist function_whitelist) = Return []
  /\ remaining_issues answer unsafe_overrides = [].

(** Every [WriteCopiled] of a list of events comes right after the answer
    of the classifier on the same source, and that answer passes. *)
Inductive checked_writes (module_whitelist function_whitelist unsafe_overrides
    : list string) : list event -> Prop :=
| checked_nil :
    checked_writes module_whitelist function_whitelist unsafe_overrides []
| checked_other e evs :
    (forall filename source, e <> WriteCopiled filename source) ->
    checked_writes module_whitelist function_whitelist unsafe_overrides evs ->
    checked_writes module_whitelist function_whitelist unsafe_overrides
      (e :: evs)
| checked_write source answer filename evs :
    passes module_whitelist function_whitelist unsafe_overrides source answer ->
    checked_writes module_whitelist function_whitelist unsafe_overrides evs ->
    checked_writes module_whitelist function_whitelist unsafe_overrides
      (Completion (safety_request source) answer
         :: WriteCopiled filename source :: evs).

(** The candidate a pass of the loop gets when it starts in [w], the
    answer of the classifier on a source, and the worlds after each of
    the three kinds of request. *)
Definition candidate_at (specification : string) (w : world) : string :=
  _clean_response
    (chat_completion (asked (trace w)) (generate_request specification)).

Definition verdict_at (source : string) (w : world) : string :=
  chat_completion (asked (trace w)) (safety_request source).

Definition clarity_at (specification : string) (w : world) : string :=
  chat_completion (asked (trace w)) (clarity_request specification).

Definition after_asking (specification : string) (w : world) : world :=
  log (Completion (generate_request specification)
         (chat_completion (asked (trace w))
            (generate_request specification))) w.

Definition after_verdict (source : string) (w : world) : world :=
  log (Completion (safety_request source) (verdict_at source w)) w.

Definition after_clarity (specification : string) (w : world) : world :=
  log (Completion (clarity_request specification)
         (clarity_at specification w)) w.

(** The candidate of the pass that starts in [w] fits the size guard and
    passes the gate. *)
Definition safe_candidate (specification : string)
    (module_whitelist function_whitelist unsafe_overrides : list string)
    (w : world) : Prop :=
  let source := candidate_at specification w in
  (len source <= max_characters (models best))%Z
  /\ passes module_whitelist function_whitelist unsafe_overrides source
       (verdict_at source (after_asking specification w)).

(** The world a pass that starts in [w] leaves when its candidate passes
    the gate. *)
Definition after_gate (specification : string) (w : world) : world :=
  after_verdict (candidate_at specification w) (after_asking specification w).

(** The cache entry [_copiler] finds in [w]. *)
Definition cached (callable_name : option string) (w : world)
  : result (pyval pyobj) :=
  fst (_get_existing_copilation (copilations_path callable_name)
         callable_name w).

(** The requests of a list of events that use a given prompt. *)
Definition requests_with (sm : system_message) (evs : list event)
  : list request :=
  filter
    (fun q =>
       match system q, sm with
       | copile_from_specification, copile_from_specification => true
       | assess_specification, assess_specification => true
       | recopile_from_specification, recopile_from_specification => true
       | check_for_safety_issues, check_for_safety_issues => true
       | _, _ => false
       end)
    (asked evs).

(** A computation that adds no event. *)
Definition silent {A : Type} (m : M A) : Prop :=
  forall w, trace (snd (m w)) = trace w.

(** *** The module scan *)

Lemma in_modules_used_from (source_code : string) (blacklist used : list string)
    (m : string) :
  In m (fold_left
          (fun used_modules module =>
             if imports_module source_code module
             then (used_modules ++ [module])%list
             else used_modules)
          blacklist used)
  <-> In m used \/ (In m blacklist /\ imports_module source_code m = true).
Proof.
  revert used. induction blacklist as [|x l IH]; intros used; simpl.
  - split; [auto|]. intros [H|[[] _]]. exact H.
  - rewrite IH. destruct (imports_module source_code x) eqn:E.
    + rewrite in_app_iff. simpl. split.
      * intros [[H|[->|[]]]|[H G]]; auto.
      * intros [H|[[->|H] G]]; auto.
    + split.
      * intros [H|[H G]]; auto.
      * intros [H|[[->|H] G]]; auto. congruence.
Qed.

Lemma in_modules_used (source_code : string) (blacklist : list string)
    (m : string) :
  In m (check_for_blacklisted_modules_used source_code blacklist)
  <-> In m blacklist /\ imports_module source_code m = true.
Proof.
  unfold check_for_blacklisted_modules_used.
  rewrite in_modules_used_from. simpl.
  split; [intros [[]|H]; exact H | auto].
Qed.

Lemma imports_module_iff (source_code m : string) :
  imports_module source_code m = true
  <-> (exists a b, source_code = a ++ ("import " ++ m) ++ b)
      \/ (exists a b, source_code = a ++ ("from " ++ m ++ " import") ++ b).
Proof.
  unfold imports_module. rewrite orb_true_iff, !contains_iff. reflexivity.
Qed.

Lemma in_module_blacklist (module_whitelist : list string) (m : string) :
  In m (module_blacklist module_whitelist)
  <-> In m module_blacklist_txt /\ ~ In m module_whitelist.
Proof.
  unfold module_blacklist. now rewrite in_minus, !in_of_list.
Qed.

Lemma in_function_blacklist (function_whitelist : list string) (f : string) :
  In f (function_blacklist function_whitelist)
  <-> In f function_blacklist_txt /\ ~ In f function_whitelist.
Proof.
  unfold function_blacklist. now rewrite in_minus, !in_of_list.
Qed.

(** *** The function scan *)

(** The recursion follows the loop of the source: one visit for each
    child, in order. *)
Lemma find_function_calls_children (blacklisted_functions : list string)
    (node : ast) (found : list string) :
  find_function_calls blacklisted_functions node found
  = fold_left
      (fun found child =>
         find_function_calls blacklisted_functions child
           (note_call blacklisted_functions child found))
      (iter_child_nodes node) found.
Proof. destruct node; reflexivity. Qed.

Lemma in_note_call (blacklisted_functions : list string) (child : ast)
    (found : list string) (f : string) :
  In f (note_call blacklisted_functions child found)
  <-> In f found
      \/ (bare_callee child = Some f /\ In f blacklisted_functions).
Proof.
  unfold note_call. destruct (bare_callee child) as [id|].
  2:{ split; [auto|]. intros [H|[H _]]; [exact H | discriminate]. }
  destruct (mem id blacklisted_functions) eqn:E.
  - apply mem_iff in E. rewrite in_add. split.
    + intros [->|H]; [right; split; [reflexivity | assumption] | now left].
    + intros [H|[H _]]; [now right | left; congruence].
  - apply mem_false_iff in E. split; [now left|].
    intros [H|[H G]]; [assumption|]. injection H as ->. contradiction.
Qed.

Lemma calls_bare_iff (f : string) (node : ast) :
  calls_bare f node
  <-> exists child, In child (iter_child_nodes node)
                    /\ (bare_callee child = Some f \/ calls_bare f child).
Proof.
  split.
  - intros H. destruct H as [node child Hin Hc | node child Hin Hc];
      exists child; auto.
  - intros (child & Hin & [Hc|Hc]);
      [eapply calls_child | eapply calls_below]; eassumption.
Qed.

Lemma in_find_function_calls (blacklisted_functions : list string)
    (node : ast) :
  forall (found : list string) (f : string),
    In f (find_function_calls blacklisted_functions node found)
    <-> In f found \/ (In f blacklisted_functions /\ calls_bare f node).
Proof.
  induction node as [node IH] using children_ind. intros found f.
  rewrite find_function_calls_children, calls_bare_iff.
  revert found. induction IH as [|child l Hchild _ IHl]; intros found; simpl.
  - split; [now left|]. intros [H|(_ & c & [] & _)]. assumption.
  - rewrite IHl, Hchild, in_note_call. split.
    + intros [[[H|[Hc Hb]]|[Hb Hc]]|(Hb & c & Hin & Hc)].
      * now left.
      * right. split; [assumption|]. exists child. auto.
      * right. split; [assumption|]. exists child. auto.
      * right. split; [assumption|]. exists c. auto.
    + intros [H|(Hb & c & [<-|Hin] & [Hc|Hc])]; auto.
      * right. split; [assumption|]. exists c. auto.
      * right. split; [assumption|]. exists c. auto.
Qed.

Lemma nodup_note_call (blacklisted_functions : list string) (child : ast)
    (found : list string) :
  NoDup found -> NoDup (note_call blacklisted_functions child found).
Proof.
  intros H. unfold note_call. destruct (bare_callee child); [|assumption].
  destruct (mem s blacklisted_functions); [apply nodup_add|]; assumption.
Qed.

Lemma nodup_find_function_calls (blacklisted_functions : list string)
    (node : ast) :
  forall found : list string,
    NoDup found -> NoDup (find_function_calls blacklisted_functions node found).
Proof.
  induction node as [node IH] using children_ind. intros found.
  rewrite find_function_calls_children.
  revert found. induction IH as [|child l Hchild _ IHl]; intros found H; simpl.
  - assumption.
  - apply IHl, Hchild, nodup_note_call, H.
Qed.

(** *** [_get_completion] and the size guard *)

Lemma get_completion_over (comment : string) (sm : system_message)
    (mc : model_class) (w : world) :
  (len comment > max_characters (models mc))%Z ->
  _get_completion comment sm mc w = (Raise AttributeError, w).
Proof.
  intros H. unfold _get_completion, bind, ret, lift.
  apply Z.gtb_gt in H. rewrite H. reflexivity.
Qed.

Lemma get_completion_within (comment : string) (sm : system_message)
    (mc : model_class) (w : world) :
  (len comment <= max_characters (models mc))%Z ->
  let q := {| comment := comment; system := sm; model := models mc |} in
  let answer := chat_completion (asked (trace w)) q in
  _get_completion comment sm mc w
  = (Return answer, log (Completion q answer) w).
Proof.
  intros H. unfold _get_completion, bind, ret, lift, create.
  destruct (len comment >? max_characters (models mc))%Z eqn:E.
  - apply Z.gtb_gt in E. lia.
  - reflexivity.
Qed.

(** *** [_review_safety], case by case *)

Section Gate.

Variable source : string.
Variable module_whitelist function_whitelist unsafe_overrides : list string.
Variable w : world.

Let used_modules : list string :=
  check_for_blacklisted_modules_used source (module_blacklist module_whitelist).

Let used_functions : result (list string) :=
  check_for_blacklisted_functions_used source
    (function_blacklist function_whitelist).

Let gate : result unit * world :=
  _review_safety source module_whitelist function_whitelist unsafe_overrides w.

Lemma gate_module_violation :
  used_modules <> [] ->
  gate = (Raise (BlackListedModuleImportError source used_modules), w).
Proof.
  intros H. unfold gate, _review_safety. fold used_modules.
  apply nonempty_true in H. rewrite H. reflexivity.
Qed.

Lemma gate_scan_raises (e : exn) :
  used_modules = [] -> used_functions = Raise e -> gate = (Raise e, w).
Proof.
  intros H G. unfold gate, _review_safety. fold used_modules used_functions.
  rewrite H, G. reflexivity.
Qed.

Lemma gate_function_violation (found : list string) :
  used_modules = [] -> used_functions = Return found -> found <> [] ->
  gate = (Raise (BlackListedFunctionUseError source found), w).
Proof.
  intros H G N. unfold gate, _review_safety. fold used_modules used_functions.
  rewrite H, G. unfold bind, lift. simpl.
  apply nonempty_true in N. rewrite N. reflexivity.
Qed.

Lemma gate_over_budget :
  used_modules = [] -> used_functions = Return [] ->
  (len source > max_characters (models best))%Z ->
  gate = (Raise AttributeError, w).
Proof.
  intros H G L. unfold gate, _review_safety. fold used_modules used_functions.
  rewrite H, G. unfold bind, lift. simpl.
  rewrite (get_completion_over _ _ _ _ L). reflexivity.
Qed.

Lemma gate_semantic :
  used_modules = [] -> used_functions = Return [] ->
  (len source <= max_characters (models best))%Z ->
  let answer := chat_completion (asked (trace w)) (safety_request source) in
  let issues := remaining_issues answer unsafe_overrides in
  gate = (if nonempty issues
          then Raise (CopiledSourceDeemedUnsafeError source issues)
          else Return tt,
          log (Completion (safety_request source) answer) w).
Proof.
  intros H G L. unfold gate, _review_safety. fold used_modules used_functions.
  rewrite H, G. unfold bind, lift. simpl.
  rewrite (get_completion_within _ _ _ _ L). unfold safety_request.
  destruct (nonempty _); reflexivity.
Qed.

End Gate.

Lemma in_remaining_issues (answer : string) (unsafe_overrides : list string)
    (label : string) :
  In label (remaining_issues answer unsafe_overrides)
  <-> In label (split answer ", ") /\ ~ In label unsafe_overrides
      /\ label <> "NONE".
Proof.
  unfold remaining_issues. rewrite !in_minus, !in_of_list. simpl. split.
  - intros [[Hs Ho] N]. split; [exact Hs|]. split; [exact Ho|].
    intros ->. apply N. now left.
  - intros (Hs & Ho & N). split; [split; assumption|].
    intros [E|[]]. now destruct N.
Qed.

(** *** Computations that add no event *)

Lemma silent_ret {A : Type} (a : A) : silent (ret a).
Proof. intros w. reflexivity. Qed.

Lemma silent_lift {A : Type} (r : result A) : silent (lift r).
Proof. intros w. reflexivity. Qed.

Lemma silent_bind {A B : Type} (m : M A) (k : A -> M B) :
  silent m -> (forall a, silent (k a)) -> silent (bind m k).
Proof.
  intros Hm Hk w. unfold bind. specialize (Hm w).
  destruct (m w) as [[a|e] w1]; simpl in *; [|assumption].
  now rewrite Hk.
Qed.

Lemma silent_read_file (path : string) : silent (read_file path).
Proof. intros w. unfold read_file. now destruct (files w path). Qed.

Lemma silent_write_file (path text : string) : silent (write_file path text).
Proof. intros w. reflexivity. Qed.

Lemma silent_append_file (path text : string) : silent (append_file path text).
Proof. intros w. unfold append_file. now destruct (files w path). Qed.

Lemma get_existing_keeps_world (filename : string) (name : option string)
    (w : world) :
  snd (_get_existing_copilation filename name w) = w.
Proof.
  unfold _get_existing_copilation.
  destruct (files w filename); [|reflexivity].
  destruct (exec_module s) as [module|e]; [|now destruct e].
  destruct (getattr module name) as [v|e]; [reflexivity | now destruct e].
Qed.

Lemma silent_get_existing (filename : string) (name : option string) :
  silent (_get_existing_copilation filename name).
Proof. intros w. now rewrite get_existing_keeps_world. Qed.

Lemma silent_run_tool (tool : string -> result string) (filename : string) :
  silent (run_tool tool filename).
Proof.
  unfold run_tool.
  apply silent_bind; [apply silent_read_file | intros text].
  apply silent_bind; [apply silent_lift | intros text'].
  apply silent_write_file.
Qed.

Lemma silent_move_imports (file_path : string) :
  silent (_move_imports_to_top file_path).
Proof.
  unfold _move_imports_to_top.
  apply silent_bind; [apply silent_read_file | intros text].
  apply silent_write_file.
Qed.

Lemma silent_rewrite (filename : string) (name : option string)
    (new_source_code : string) :
  silent (_rewrite_copiled_source filename name new_source_code).
Proof.
  unfold _rewrite_copiled_source.
  apply silent_bind; [apply silent_read_file | intros text].
  apply silent_bind; [apply silent_lift | intros module].
  apply silent_bind; [apply silent_lift | intros v].
  apply silent_bind; [apply silent_lift | intros source_code].
  apply silent_bind; [apply silent_lift | intros line].
  apply silent_write_file.
Qed.

(** [_write_copiled_source] adds its own event and nothing else, whether
    it returns or raises. *)
Lemma write_copiled_source_trace (filename : string) (name : option string)
    (source_code : string) (w : world) :
  trace (snd (_write_copiled_source filename name source_code w))
  = (trace w ++ [WriteCopiled filename source_code])%list.
Proof.
  unfold _write_copiled_source.
  set (rest := bind (_get_existing_copilation filename name) _).
  assert (H : silent rest).
  { apply silent_bind; [apply silent_get_existing | intros existing].
    apply silent_bind.
    - destruct (bool_of existing);
        [apply silent_rewrite | apply silent_append_file].
    - intros _. apply silent_bind; [apply silent_move_imports | intros _].
      apply silent_bind; [apply silent_run_tool | intros _].
      apply silent_run_tool. }
  unfold bind at 1, emit. rewrite H. reflexivity.
Qed.

(** *** One pass of the generation loop *)

Section Runs.

Variable specification : string.
Variable callable_name : option string.
Variable copilations_filename : string.
Variable module_whitelist function_whitelist unsafe_overrides : list string.

#[local] Abbreviation loop :=
  (generation_loop specification callable_name copilations_filename
     module_whitelist function_whitelist unsafe_overrides).
#[local] Abbreviation gate source :=
  (_review_safety source module_whitelist function_whitelist unsafe_overrides).
#[local] Abbreviation ok :=
  (passes module_whitelist function_whitelist unsafe_overrides).
#[local] Abbreviation checked :=
  (checked_writes module_whitelist function_whitelist unsafe_overrides).
#[local] Abbreviation try_body :=
  (load_and_write callable_name copilations_filename).
#[local] Abbreviation asking := (Completion (generate_request specification)).
#[local] Abbreviation judged source := (Completion (safety_request source)).
#[local] Abbreviation written source := (WriteCopiled copilations_filename source).
#[local] Abbreviation copiled :=
  (Print ("The specification for '" ++ str_of_name callable_name
          ++ "()' was copiled in " ++ copilations_filename)).

Lemma review_safety_cases (source : string) (w : world) :
  let answer := chat_completion (asked (trace w)) (safety_request source) in
  (exists e, gate source w = (Raise e, w))
  \/ (exists r,
        gate source w = (r, log (judged source answer) w)
        /\ (len source <= max_characters (models best))%Z
        /\ check_for_blacklisted_modules_used source
             (module_blacklist module_whitelist) = []
        /\ check_for_blacklisted_functions_used source
             (function_blacklist function_whitelist) = Return []
        /\ (r = Return tt /\ remaining_issues answer unsafe_overrides = []
            \/ exists issues,
                 r = Raise (CopiledSourceDeemedUnsafeError source issues))).
Proof.
  intros answer.
  destruct (check_for_blacklisted_modules_used source
              (module_blacklist module_whitelist)) as [|m ms] eqn:Hm.
  2:{ left. eexists. apply gate_module_violation. rewrite Hm. discriminate. }
  destruct (check_for_blacklisted_functions_used source
              (function_blacklist function_whitelist)) as [[|f fs]|e] eqn:Hf.
  - destruct (Z.le_gt_cases (len source) (max_characters (models best)))
      as [L|L].
    + right. pose proof (gate_semantic source module_whitelist
        function_whitelist unsafe_overrides w Hm Hf L) as G.
      cbv zeta in G. fold answer in G.
      destruct (remaining_issues answer unsafe_overrides) as [|i rest] eqn:R;
        simpl in G; eexists; (split; [exact G|]); repeat split; eauto.
    + left. eexists.
      apply (gate_over_budget source module_whitelist function_whitelist
               unsafe_overrides w Hm Hf). lia.
  - left. eexists.
    apply (gate_function_violation source module_whitelist function_whitelist
             unsafe_overrides w (f :: fs) Hm Hf). discriminate.
  - left. eexists.
    apply (gate_scan_raises source module_whitelist function_whitelist
             unsafe_overrides w e Hm Hf).
Qed.

Lemma load_and_write_cases (source : string) (w : world) :
  (exists e, _source_to_object source = Raise e
             /\ try_body source w = (Raise e, w))
  \/ (exists v w',
        _source_to_object source = Return v
        /\ (try_body source w = (Return v, w')
            /\ trace w' = (trace w ++ [written source; copiled])%list
            \/ exists e,
                 try_body source w = (Raise e, w')
                 /\ trace w' = (trace w ++ [written source])%list)).
Proof.
  unfold load_and_write, bind, lift.
  destruct (_source_to_object source) as [v|e]; [right | left; eauto].
  pose proof (write_copiled_source_trace copilations_filename callable_name
                source w) as H.
  destruct (_write_copiled_source copilations_filename callable_name source w)
    as [[[]|e] w1]; simpl in H.
  - exists v. eexists. split; [reflexivity|]. left. split; [reflexivity|].
    simpl. rewrite H, <- app_assoc. reflexivity.
  - exists v, w1. split; [reflexivity|]. right. eauto.
Qed.

Lemma report_bad_source_run (last_source : option string) (w : world) :
  let line := Print bad_source_line in
  report_bad_source last_source w
  = match last_source with
    | Some source => (Return PyNone, log (Print source) (log line w))
    | None => (Raise UnboundLocalError, log line w)
    end.
Proof. destruct last_source; reflexivity. Qed.

(** *** What a run of the loop adds to the trace *)

Lemma requests_with_app (sm : system_message) (a b : list event) :
  requests_with sm (a ++ b)
  = (requests_with sm a ++ requests_with sm b)%list.
Proof.
  unfold requests_with, asked. now rewrite flat_map_app, filter_app.
Qed.

Lemma checked_app (a b : list event) :
  checked a -> checked b -> checked (a ++ b).
Proof.
  intros Ha Hb. induction Ha; simpl.
  - assumption.
  - now apply checked_other.
  - now apply checked_write.
Qed.

(** From [w] to [w'] the events [evs] were added: every write in them is
    checked, none is a clarity check, at most [n] are requests for an
    implementation, and the files are the same unless one is a write. *)
Definition steps (n : nat) (w : world) (evs : list event) (w' : world)
  : Prop :=
  trace w' = (trace w ++ evs)%list
  /\ checked evs
  /\ requests_with assess_specification evs = []
  /\ (List.length (requests_with copile_from_specification evs) <= n)%nat
  /\ ((forall filename source, ~ In (WriteCopiled filename source) evs) ->
      files w' = files w).

Lemma steps_none (w : world) : steps 0 w [] w.
Proof.
  unfold steps. rewrite app_nil_r. repeat split; auto. constructor.
Qed.

Lemma steps_app (n m : nat) (w w1 w2 : world) (a b : list event) :
  steps n w a w1 -> steps m w1 b w2 -> steps (n + m) w (a ++ b) w2.
Proof.
  intros (Ta & Ca & Qa & Na & Fa) (Tb & Cb & Qb & Nb & Fb).
  unfold steps. rewrite !requests_with_app, Qa, Qb, length_app.
  repeat split.
  - now rewrite Tb, Ta, app_assoc.
  - now apply checked_app.
  - lia.
  - intros H. rewrite Fb, Fa; [reflexivity | |];
      intros f c G; apply (H f c); apply in_or_app; auto.
Qed.

Lemma steps_more (n m : nat) (w w' : world) (evs : list event) :
  (n <= m)%nat -> steps n w evs w' -> steps m w evs w'.
Proof.
  intros L (T & C & Q & N & F). unfold steps. repeat split; auto. lia.
Qed.

Lemma steps_asking (w : world) (answer : string) :
  steps 1 w [asking answer] (log (asking answer) w).
Proof.
  unfold steps. repeat split; auto.
  apply checked_other; [discriminate | constructor].
Qed.

Lemma steps_judged (w : world) (source answer : string) :
  steps 0 w [judged source answer] (log (judged source answer) w).
Proof.
  unfold steps. repeat split; auto.
  apply checked_other; [discriminate | constructor].
Qed.

Lemma steps_print (w : world) (text : string) :
  steps 0 w [Print text] (log (Print text) w).
Proof.
  unfold steps. repeat split; auto.
  apply checked_other; [discriminate | constructor].
Qed.

Lemma steps_written (w w' : world) (source answer : string)
    (tail : list event) :
  ok source answer ->
  checked tail ->
  requests_with assess_specification tail = [] ->
  requests_with copile_from_specification tail = [] ->
  trace w' = ((trace w ++ [judged source answer])
              ++ written source :: tail)%list ->
  steps 0 w (judged source answer :: written source :: tail) w'.
Proof.
  intros Hok Hc Ha Hg T. unfold steps. repeat split.
  - rewrite T, <- app_assoc. reflexivity.
  - now apply checked_write.
  - exact Ha.
  - change (requests_with copile_from_specification
              (judged source answer :: written source :: tail))
      with (requests_with copile_from_specification tail).
    rewrite Hg. simpl. lia.
  - intros H. exfalso. apply (H copilations_filename source).
    right. now left.
Qed.

Lemma steps_report (n : nat) (last_source : option string) (w w' : world)
    (r : result (pyval pyobj)) :
  report_bad_source last_source w = (r, w') ->
  (exists evs, steps n w evs w') /\ forall o, r <> Return (PyObject o).
Proof.
  rewrite report_bad_source_run. cbv zeta.
  destruct last_source as [source|]; intros [= <- <-].
  - split; [|discriminate]. eexists.
    apply (steps_more 0); [lia|].
    eapply (steps_app 0 0); apply steps_print.
  - split; [|discriminate]. eexists.
    apply (steps_more 0); [lia | apply steps_print].
Qed.

(** The [except] clauses: a missing module ends the call, anything else
    leads to the next pass. *)
Lemma except_cases (e : exn) (next : M (pyval pyobj)) :
  (exists name,
      e = ModuleNotFoundError name
      /\ match e with
         | ModuleNotFoundError name =>
             raise (CopiledSourceCodeNeedsModule name)
         | _ => next
         end = raise (CopiledSourceCodeNeedsModule name))
  \/ ((forall name, e <> ModuleNotFoundError name)
      /\ match e with
         | ModuleNotFoundError name =>
             raise (CopiledSourceCodeNeedsModule name)
         | _ => next
         end = next).
Proof.
  destruct e; try (right; split; [discriminate | reflexivity]).
  left. eauto.
Qed.

(** Every run of the loop, however it ends. *)
Lemma generation_loop_steps (fuel : nat) :
  forall (tries : nat) (last_source : option string) (w w' : world)
         (r : result (pyval pyobj)),
    loop fuel tries last_source w = (r, w') ->
    exists evs,
      steps fuel w evs w'
      /\ forall o, r = Return (PyObject o) ->
           exists source answer,
             ok source answer
             /\ _source_to_object source = Return (PyObject o)
             /\ In (written source) evs.
Proof.
  induction fuel as [|fuel IH]; intros tries last_source w w' r H.
  - simpl in H. destruct (steps_report 0 _ _ _ _ H) as [[evs S] N].
    exists evs. split; [assumption|]. intros o ->. now destruct (N o).
  - simpl in H. destruct (tries <? max_tries)%nat.
    2:{ destruct (steps_report (S fuel) _ _ _ _ H) as [[evs S] N].
        exists evs. split; [assumption|]. intros o ->. now destruct (N o). }
    unfold bind at 1 in H.
    destruct (Z.le_gt_cases (len specification) (max_characters (models best)))
      as [L|L].
    2:{ rewrite get_completion_over in H by lia. injection H as <- <-.
        exists []. split; [|discriminate].
        apply (steps_more 0); [lia | apply steps_none]. }
    rewrite (get_completion_within _ _ _ _ L) in H. cbv zeta in H.
    fold (generate_request specification) in H.
    set (response := chat_completion (asked (trace w))
                       (generate_request specification)) in H.
    set (source := _clean_response response) in H.
    set (w1 := log (asking response) w) in H.
    assert (S1 : steps 1 w [asking response] w1) by apply steps_asking.
    unfold bind at 1 in H.
    destruct (review_safety_cases source w1)
      as [[e G]|(r0 & G & _ & Hm & Hf & [[-> R]|[issues ->]])];
      rewrite G in H.
    + injection H as <- <-. exists [asking response].
      split; [|discriminate]. apply (steps_more 1); [lia | assumption].
    + set (answer := chat_completion (asked (trace w1))
                       (safety_request source)) in *.
      set (w2 := log (judged source answer) w1) in *.
      assert (Hok : ok source answer) by (repeat split; assumption).
      unfold try_except in H.
      destruct (load_and_write_cases source w2)
        as [(e & So & T)|(v & w3 & So & [[T Tr]|(e & T & Tr)])];
        rewrite T in H.
      * assert (S2 : steps 1 w [asking response; judged source answer] w2)
          by (apply (steps_app 1 0 _ _ _ [_] [_] S1), steps_judged).
        destruct (except_cases e
                    (loop fuel (tries + 1)%nat (Some source)))
          as [(name & Ee & E)|(N & E)]; rewrite E in H.
        -- injection H as <- <-. eexists. split; [|discriminate].
           apply (steps_more 1); [lia | exact S2].
        -- destruct (IH _ _ _ _ _ H) as (evs & S3 & Hr).
           exists ([asking response; judged source answer] ++ evs)%list.
           split; [apply (steps_app 1 fuel _ _ _ _ _ S2 S3)|].
           intros o Ho. destruct (Hr o Ho) as (c & a & ? & ? & ?).
           exists c, a. split; [assumption | split; [assumption|]].
           apply in_or_app. auto.
      * injection H as <- <-.
        exists [asking response; judged source answer;
                written source; copiled].
        split.
        -- apply (steps_more 1); [lia|].
           apply (steps_app 1 0 _ _ _ [_] _ S1).
           apply steps_written; auto.
           ++ apply checked_other; [discriminate | constructor].
        -- intros o [= ->]. exists source, answer.
           split; [assumption | split; [assumption|]]. simpl. auto.
      * assert (S2 : steps 1 w [asking response; judged source answer;
                                written source] w3).
        { apply (steps_app 1 0 _ _ _ [_] _ S1).
          apply steps_written; auto. constructor. }
        destruct (except_cases e
                    (loop fuel (tries + 1)%nat (Some source)))
          as [(name & Ee & E)|(N & E)]; rewrite E in H.
        -- injection H as <- <-. eexists. split; [|discriminate].
           apply (steps_more 1); [lia | exact S2].
        -- destruct (IH _ _ _ _ _ H) as (evs & S3 & Hr).
           exists ([asking response; judged source answer; written source]
                     ++ evs)%list.
           split; [apply (steps_app 1 fuel _ _ _ _ _ S2 S3)|].
           intros o Ho. destruct (Hr o Ho) as (c & a & ? & ? & ?).
           exists c, a. split; [assumption | split; [assumption|]].
           apply in_or_app. auto.
    + injection H as <- <-.
      exists [asking response;
              judged source
                (chat_completion (asked (trace w1)) (safety_request source))].
      split; [|discriminate]. apply (steps_more 1); [lia|].
      apply (steps_app 1 0 _ _ _ [_] [_] S1), steps_judged.
Qed.

(** *** A pass whose candidate passes the gate *)

Lemma gate_passes (source : string) (w : world) :
  (len source <= max_characters (models best))%Z ->
  ok source (verdict_at source w) ->
  gate source w = (Return tt, after_verdict source w).
Proof.
  intros L (Hm & Hf & R).
  rewrite (gate_semantic source _ _ _ w Hm Hf L).
  unfold verdict_at in R. rewrite R. reflexivity.
Qed.

Lemma pass_reaches_try (fuel tries : nat) (last_source : option string)
    (w : world) :
  (tries < max_tries)%nat ->
  (len specification <= max_characters (models best))%Z ->
  safe_candidate specification module_whitelist function_whitelist
    unsafe_overrides w ->
  let source := candidate_at specification w in
  loop (S fuel) tries last_source w
  = try_except (try_body source)
      (fun e =>
         match e with
         | ModuleNotFoundError name =>
             raise (CopiledSourceCodeNeedsModule name)
         | _ => loop fuel (tries + 1)%nat (Some source)
         end)
      (after_gate specification w).
Proof.
  intros T L [Lc Hok] source. subst source. simpl.
  apply Nat.ltb_lt in T. rewrite T.
  unfold bind at 1. rewrite (get_completion_within _ _ _ _ L). cbv zeta.
  fold (generate_request specification) (candidate_at specification w)
       (after_asking specification w).
  unfold bind at 1. rewrite (gate_passes _ _ Lc Hok).
  reflexivity.
Qed.

(** The candidate cannot be turned into an object, for another reason
    than a missing module: the loop goes on to its next pass. *)
Lemma pass_retries (fuel tries : nat) (last_source : option string)
    (w : world) (e : exn) :
  (tries < max_tries)%nat ->
  (len specification <= max_characters (models best))%Z ->
  safe_candidate specification module_whitelist function_whitelist
    unsafe_overrides w ->
  _source_to_object (candidate_at specification w) = Raise e ->
  (forall name, e <> ModuleNotFoundError name) ->
  loop (S fuel) tries last_source w
  = loop fuel (tries + 1)%nat (Some (candidate_at specification w))
      (after_gate specification w).
Proof.
  intros T L Hs So N. rewrite (pass_reaches_try _ _ _ _ T L Hs).
  unfold try_except.
  destruct (load_and_write_cases (candidate_at specification w)
              (after_gate specification w))
    as [(e' & So' & ->)|(v & w' & So' & _)]; [|congruence].
  assert (e' = e) by congruence. subst e'.
  destruct (except_cases e
              (loop fuel (tries + 1)%nat
                 (Some (candidate_at specification w))))
    as [(name & Ee & _)|(_ & ->)]; [|reflexivity].
  now destruct (N name).
Qed.

(** The candidate is loaded and written: the loop returns the object. *)
Lemma pass_returns (fuel tries : nat) (last_source : option string)
    (w w' : world) (v : pyval pyobj) :
  (tries < max_tries)%nat ->
  (len specification <= max_characters (models best))%Z ->
  safe_candidate specification module_whitelist function_whitelist
    unsafe_overrides w ->
  try_body (candidate_at specification w) (after_gate specification w)
  = (Return v, w') ->
  loop (S fuel) tries last_source w = (Return v, w').
Proof.
  intros T L Hs R. rewrite (pass_reaches_try _ _ _ _ T L Hs).
  unfold try_except. now rewrite R.
Qed.

(** The loop runs as long as [tries] is below [max_tries]: fuel beyond
    [max_tries - tries] changes nothing. *)
Lemma generation_loop_fuel (fuel extra : nat) :
  forall (tries : nat) (last_source : option string) (w : world),
    (max_tries - tries <= fuel)%nat ->
    loop (fuel + extra) tries last_source w = loop fuel tries last_source w.
Proof.
  induction fuel as [|fuel IH]; intros tries last_source w H.
  - assert (T : (tries <? max_tries)%nat = false) by (apply Nat.ltb_ge; lia).
    destruct extra; simpl; [reflexivity | now rewrite T].
  - simpl. destruct (tries <? max_tries)%nat eqn:T; [|reflexivity].
    unfold bind.
    destruct (_get_completion specification copile_from_specification best w)
      as [[response|e] w1]; [|reflexivity].
    destruct (gate (_clean_response response) w1) as [[[]|e] w2];
      [|reflexivity].
    unfold try_except.
    destruct (try_body (_clean_response response) w2) as [[v|e] w3];
      [reflexivity|].
    destruct e; try reflexivity; apply IH; lia.
Qed.

End Runs.

(** *** [_copiler] and its two branches *)

Lemma copiler_no_name (specification : string) (force_copilation : bool)
    (mw fw uo : str_or_list) (w : world) (e : exn) :
  _parse_callable_name specification = Raise e ->
  _copiler specification force_copilation mw fw uo w = (Raise e, w).
Proof.
  intros H. unfold _copiler, bind, lift. now rewrite H.
Qed.

Lemma copiler_no_lookup (specification : string) (force_copilation : bool)
    (mw fw uo : str_or_list) (w : world) (name : option string) (e : exn) :
  _parse_callable_name specification = Return name ->
  cached name w = Raise e ->
  _copiler specification force_copilation mw fw uo w = (Raise e, w).
Proof.
  intros H C. unfold _copiler, bind, lift. rewrite H. unfold cached in C.
  pose proof (get_existing_keeps_world (copilations_path name) name w) as K.
  destruct (_get_existing_copilation (copilations_path name) name w)
    as [r0 w0]. simpl in *. now subst.
Qed.

Lemma copiler_run (specification : string) (force_copilation : bool)
    (mw fw uo : str_or_list) (w : world) (name : option string)
    (existing : pyval pyobj) :
  _parse_callable_name specification = Return name ->
  cached name w = Return existing ->
  _copiler specification force_copilation mw fw uo w
  = if force_copilation || negb (bool_of existing)
    then generate specification name (copilations_path name)
           (as_list mw) (as_list fw) (as_list uo) w
    else (Return existing, w).
Proof.
  intros H C. unfold _copiler, bind, lift. rewrite H. unfold cached in C.
  pose proof (get_existing_keeps_world (copilations_path name) name w) as K.
  destruct (_get_existing_copilation (copilations_path name) name w)
    as [r0 w0]. simpl in *. subst.
  now destruct (force_copilation || negb (bool_of existing)).
Qed.

Lemma generate_cases (specification : string) (name : option string)
    (filename : string) (mw fw uo : list string) (w w' : world)
    (r : result (pyval pyobj)) :
  generate specification name filename mw fw uo w = (r, w') ->
  ((len specification > max_characters (models fast))%Z
   /\ r = Raise AttributeError /\ w' = w)
  \/ ((len specification <= max_characters (models fast))%Z
      /\ (startswith (clarity_at specification w) "UNCLEAR" = true
          /\ r = Raise (SpecificationUnclearError name
                          (clarity_at specification w))
          /\ w' = after_clarity specification w
          \/ startswith (clarity_at specification w) "UNCLEAR" = false
             /\ generation_loop specification name filename mw fw uo
                  max_tries 0 None (after_clarity specification w)
                = (r, w'))).
Proof.
  unfold generate, _review_specification. unfold bind at 1 2.
  destruct (Z.le_gt_cases (len specification) (max_characters (models fast)))
    as [L|L].
  - rewrite (get_completion_within _ _ _ _ L). cbv zeta.
    fold (clarity_request specification) (clarity_at specification w)
         (after_clarity specification w).
    destruct (startswith (clarity_at specification w) "UNCLEAR") eqn:U;
      intros H; right; (split; [assumption|]).
    + left. injection H as <- <-. auto.
    + right. auto.
  - rewrite get_completion_over by lia. intros [= <- <-]. left.
    repeat split. lia.
Qed.

Lemma checked_writes_in (mw fw uo : list string) (evs : list event) :
  checked_writes mw fw uo evs ->
  forall filename source,
    In (WriteCopiled filename source) evs ->
    exists answer,
      In (Completion (safety_request source) answer) evs
      /\ passes mw fw uo source answer.
Proof.
  induction 1 as [|e evs N _ IH|source0 answer filename0 evs Hok _ IH];
    intros filename source Hin.
  - destruct Hin.
  - destruct Hin as [->|Hin]; [now destruct (N filename source)|].
    destruct (IH _ _ Hin) as (a & Ha & Hp). exists a. split; [now right|auto].
  - destruct Hin as [Hin|[Hin|Hin]]; [discriminate | |].
    + injection Hin as <- <-. exists answer. split; [now left | assumption].
    + destruct (IH _ _ Hin) as (a & Ha & Hp). exists a.
      split; [right; now right | assumption].
Qed.

(** A call of [_copiler] asks for an implementation at most [max_tries]
    times, however it ends. *)
Lemma generation_requests_bounded (specification : string)
    (force_copilation : bool)
    (module_whitelist function_whitelist unsafe_overrides : str_or_list)
    (w w' : world) (r : result (pyval pyobj)) :
  _copiler specification force_copilation module_whitelist
    function_whitelist unsafe_overrides w = (r, w') ->
  exists evs,
    trace w' = (trace w ++ evs)%list
    /\ (List.length (requests_with copile_from_specification evs)
        <= max_tries)%nat.
Proof.
  intros H.
  assert (Stop : w' = w ->
    exists evs,
      trace w' = (trace w ++ evs)%list
      /\ (List.length (requests_with copile_from_specification evs)
          <= max_tries)%nat).
  { intros ->. exists []. rewrite app_nil_r. split; [reflexivity|].
    simpl. lia. }
  destruct (_parse_callable_name specification) as [name|e] eqn:Hn.
  2:{ rewrite (copiler_no_name _ _ _ _ _ _ _ Hn) in H.
      injection H as <- <-. now apply Stop. }
  destruct (cached name w) as [existing|e] eqn:Hc.
  2:{ rewrite (copiler_no_lookup _ _ _ _ _ _ _ _ Hn Hc) in H.
      injection H as <- <-. now apply Stop. }
  rewrite (copiler_run _ _ _ _ _ _ _ _ Hn Hc) in H.
  destruct (force_copilation || negb (bool_of existing)).
  2:{ injection H as <- <-. now apply Stop. }
  destruct (generate_cases _ _ _ _ _ _ _ _ _ H)
    as [(_ & -> & ->)|(_ & [(_ & -> & ->)|(_ & Hl)])].
  - now apply Stop.
  - exists [Completion (clarity_request specification)
              (clarity_at specification w)].
    split; [reflexivity | simpl; lia].
  - destruct (generation_loop_steps _ _ _ _ _ _ _ _ _ _ _ _ Hl)
      as (evs & (T & _ & _ & N & _) & _).
    exists (Completion (clarity_request specification)
              (clarity_at specification w) :: evs).
    split; [|exact N].
    rewrite T. unfold after_clarity. simpl. now rewrite <- app_assoc.
Qed.

(* ================================================================== *)
(** ** The safety gate *)
(* ================================================================== *)

(** C2.  The gate runs the module scan, then the function scan, then the
    semantic classification, and raises at the first check that fails: a
    module violation raises [BlackListedModuleImportError] and leaves the
    world as it was; with no module violation a function violation raises
    [BlackListedFunctionUseError] and leaves the world as it was; only
    when both scans found nothing is the classifier asked, once, and its
    answer decides.  The requests sent so far change only if both scans
    found nothing. *)
Theorem safety_gate_order (source : string)
    (module_whitelist function_whitelist unsafe_overrides : list string)
    (w : world) :
  let used_modules :=
    check_for_blacklisted_modules_used source
      (module_blacklist module_whitelist) in
  let used_functions :=
    check_for_blacklisted_functions_used source
      (function_blacklist function_whitelist) in
  let gate :=
    _review_safety source module_whitelist function_whitelist
      unsafe_overrides w in
  (used_modules <> [] ->
   gate = (Raise (BlackListedModuleImportError source used_modules), w))
  /\ (used_modules = [] ->
      forall found, used_functions = Return found -> found <> [] ->
      gate = (Raise (BlackListedFunctionUseError source found), w))
  /\ (used_modules = [] -> used_functions = Return [] ->
      (len source <= max_characters (models best))%Z ->
      let answer := verdict_at source w in
      let issues := remaining_issues answer unsafe_overrides in
      gate = (if nonempty issues
              then Raise (CopiledSourceDeemedUnsafeError source issues)
              else Return tt,
              log (Completion (safety_request source) answer) w))
  /\ (asked (trace (snd gate)) <> asked (trace w) ->
      used_modules = [] /\ used_functions = Return []).
Proof.
  intros used_modules used_functions gate. repeat split.
  - apply gate_module_violation.
  - intros Hm found Hf N. now apply gate_function_violation.
  - intros Hm Hf L. now apply gate_semantic.
  - destruct (review_safety_cases module_whitelist function_whitelist
                unsafe_overrides source w) as [[e G]|(r & G & _ & Hm & _)];
      [|assumption].
    unfold gate in H. rewrite G in H. now destruct H.
  - destruct (review_safety_cases module_whitelist function_whitelist
                unsafe_overrides source w)
      as [[e G]|(r & G & _ & _ & Hf & _)]; [|assumption].
    unfold gate in H. rewrite G in H. now destruct H.
Qed.

(** C6.  A module of the loaded denylist whose [import X] or
    [from X import] occurs in the source: unless the caller whitelisted
    it, the module scan reports it and the gate raises
    [BlackListedModuleImportError] with the source and the modules found;
    when it is whitelisted the scan does not report it. *)
Theorem module_scan_reports_unless_whitelisted (source X : string)
    (module_whitelist function_whitelist unsafe_overrides : list string)
    (w : world) :
  In X module_blacklist_txt ->
  (exists a b, source = a ++ ("import " ++ X) ++ b)
  \/ (exists a b, source = a ++ ("from " ++ X ++ " import") ++ b) ->
  let used_modules :=
    check_for_blacklisted_modules_used source
      (module_blacklist module_whitelist) in
  (~ In X module_whitelist ->
   In X used_modules
   /\ _review_safety source module_whitelist function_whitelist
        unsafe_overrides w
      = (Raise (BlackListedModuleImportError source used_modules), w))
  /\ (In X module_whitelist -> ~ In X used_modules).
Proof.
  intros Hb Hs used_modules. apply imports_module_iff in Hs. split.
  - intros Hw.
    assert (Hin : In X used_modules).
    { apply in_modules_used. split; [|assumption].
      apply in_module_blacklist. auto. }
    split; [assumption|]. apply gate_module_violation.
    fold used_modules. intros E. rewrite E in Hin. destruct Hin.
  - intros Hw Hin. apply in_modules_used in Hin as [Hin _].
    apply in_module_blacklist in Hin as [_ Hin]. contradiction.
Qed.

(** C10.  The module scan is a substring test on the raw text: a
    denylisted module that is not whitelisted is reported exactly when
    [import M] or [from M import] occurs somewhere in the source.  So
    [os] is reported for the source [import osmodule] and for the comment
    [# import os]. *)
Theorem module_scan_is_substring_test (source M : string)
    (module_whitelist : list string) :
  In M module_blacklist_txt ->
  ~ In M module_whitelist ->
  (In M (check_for_blacklisted_modules_used source
           (module_blacklist module_whitelist))
   <-> (exists a b, source = a ++ ("import " ++ M) ++ b)
       \/ (exists a b, source = a ++ ("from " ++ M ++ " import") ++ b))
  /\ (M = "os" ->
      In M (check_for_blacklisted_modules_used "import osmodule"
              (module_blacklist module_whitelist))
      /\ In M (check_for_blacklisted_modules_used "# import os"
                 (module_blacklist module_whitelist))).
Proof.
  intros Hb Hw.
  assert (G : forall text,
             In M (check_for_blacklisted_modules_used text
                     (module_blacklist module_whitelist))
             <-> imports_module text M = true).
  { intros text. rewrite in_modules_used, in_module_blacklist.
    split; [intros [_ H]; exact H | auto]. }
  split.
  - rewrite G. apply imports_module_iff.
  - intros ->. rewrite !G. split; reflexivity.
Qed.

(** C7.  On a source that parses, the function scan returns, as a set,
    exactly the names of the denylist, less the whitelisted ones, that
    are the callee of a call whose callee is a bare name, anywhere in the
    tree.  A call whose callee is an attribute adds nothing for itself:
    the tree of [m.f(x)] alone gives the empty set.  The gate raises
    [BlackListedFunctionUseError] with the source and the set exactly
    when it gets to the function scan (the module check, which comes
    first, found nothing) and the set is not empty. *)
Theorem function_scan_reports_bare_calls (source : string) (body : list ast)
    (module_whitelist function_whitelist unsafe_overrides : list string)
    (w : world) :
  ast_parse source = Some body ->
  exists found,
    check_for_blacklisted_functions_used source
      (function_blacklist function_whitelist) = Return found
    /\ NoDup found
    /\ (forall f,
          In f found
          <-> In f function_blacklist_txt /\ ~ In f function_whitelist
              /\ calls_bare f (Module body))
    /\ (forall value attr args found',
          note_call (function_blacklist function_whitelist)
            (Call (Attribute value attr) args) found' = found')
    /\ (forall m f x,
          find_function_calls (function_blacklist function_whitelist)
            (Module [Other [Call (Attribute (Name m) f) [Name x]]]) [] = [])
    /\ (_review_safety source module_whitelist function_whitelist
          unsafe_overrides w
        = (Raise (BlackListedFunctionUseError source found), w)
        <-> check_for_blacklisted_modules_used source
              (module_blacklist module_whitelist) = []
            /\ found <> []).
Proof.
  intros Hp.
  exists (find_function_calls (function_blacklist function_whitelist)
            (Module body) []).
  assert (Hf : check_for_blacklisted_functions_used source
                 (function_blacklist function_whitelist)
               = Return (find_function_calls
                           (function_blacklist function_whitelist)
                           (Module body) [])).
  { unfold check_for_blacklisted_functions_used. now rewrite Hp. }
  split; [exact Hf|]. split; [|split; [|split; [|split]]].
  - apply nodup_find_function_calls. constructor.
  - intros f. rewrite in_find_function_calls, in_function_blacklist.
    simpl. split.
    + intros [[]|[[Hb Hw] Hc]]. auto.
    + intros (Hb & Hw & Hc). auto.
  - reflexivity.
  - reflexivity.
  - split; [|intros [Hm N]; now apply gate_function_violation].
    intros H.
    destruct (check_for_blacklisted_modules_used source
                (module_blacklist module_whitelist)) as [|m ms] eqn:Hm.
    2:{ rewrite gate_module_violation in H by (rewrite Hm; discriminate).
        discriminate. }
    split; [reflexivity|]. intros E. rewrite E in Hf.
    destruct (Z.le_gt_cases (len source) (max_characters (models best)))
      as [L|L].
    + rewrite (gate_semantic _ _ _ _ _ Hm Hf L) in H.
      destruct (nonempty _); discriminate.
    + rewrite gate_over_budget in H by (assumption || lia). discriminate.
Qed.

(** C9.  Once both scans found nothing, the gate splits the answer of
    the classifier on [", "], takes out the overrides of the caller and
    [NONE], and passes exactly when nothing is left; otherwise it raises
    [CopiledSourceDeemedUnsafeError] with what is left.  The answer
    [NONE] passes, and so does [FILE_WRITE, NONE] when [FILE_WRITE] is
    overridden. *)
Theorem semantic_gate_by_labels (source : string)
    (module_whitelist function_whitelist unsafe_overrides : list string)
    (w : world) :
  check_for_blacklisted_modules_used source
    (module_blacklist module_whitelist) = [] ->
  check_for_blacklisted_functions_used source
    (function_blacklist function_whitelist) = Return [] ->
  (len source <= max_characters (models best))%Z ->
  let answer := verdict_at source w in
  let issues :=
    minus (minus (of_list (split answer ", ")) (of_list unsafe_overrides))
      ["NONE"] in
  let gate :=
    _review_safety source module_whitelist function_whitelist
      unsafe_overrides w in
  snd gate = after_verdict source w
  /\ (fst gate = Return tt <-> issues = [])
  /\ (issues <> [] ->
      fst gate = Raise (CopiledSourceDeemedUnsafeError source issues))
  /\ (forall label,
        In label issues
        <-> In label (split answer ", ") /\ ~ In label unsafe_overrides
            /\ label <> "NONE")
  /\ (answer = "NONE" -> fst gate = Return tt)
  /\ (answer = "FILE_WRITE, NONE" -> unsafe_overrides = ["FILE_WRITE"] ->
      fst gate = Return tt).
Proof.
  intros Hm Hf L answer issues gate.
  pose proof (gate_semantic source module_whitelist function_whitelist
                unsafe_overrides w Hm Hf L) as G.
  cbv zeta in G. fold (verdict_at source w) in G. fold answer in G.
  change (remaining_issues answer unsafe_overrides) with issues in G.
  fold gate in G.
  assert (P : issues = [] -> fst gate = Return tt).
  { intros E. rewrite G, E. reflexivity. }
  split; [now rewrite G|]. split; [|split; [|split; [|split]]].
  - split; [|exact P]. rewrite G. destruct issues; [reflexivity|discriminate].
  - intros N. rewrite G. destruct issues; [now destruct N | reflexivity].
  - intros label. apply in_remaining_issues.
  - intros E. apply P. destruct issues as [|label rest] eqn:I; [reflexivity|].
    assert (Hin : In label (remaining_issues answer unsafe_overrides))
      by (change (In label issues); rewrite I; now left).
    apply in_remaining_issues in Hin as (Hs & _ & N).
    rewrite E in Hs. destruct Hs as [<-|[]]. now destruct N.
  - intros E ->. apply P. unfold issues. now rewrite E.
Qed.

(* ================================================================== *)
(** ** The size guard of [_get_completion] *)
(* ================================================================== *)

(** C3.  A text of 460801 characters is over the budget of both model
    tiers (460800).  [_get_completion] sends no request for it, but it
    does not return the placeholder text either: the last line reads
    [completion.choices] of the placeholder, a [str], and the call raises
    [AttributeError]. *)
Theorem oversize_input_raises (system_message : system_message)
    (model_class : model_class) (w : world) :
  let comment := repeat_char "a" (Z.to_nat 460801) in
  (len comment > max_characters (models model_class))%Z
  /\ _get_completion comment system_message model_class w
     = (Raise AttributeError, w)
  /\ fst (_get_completion comment system_message model_class w)
     <> Return (placeholder_text (len comment)
                  (max_characters (models model_class))).
Proof.
  intros comment.
  assert (L : (len comment > max_characters (models model_class))%Z).
  { unfold comment. rewrite len_repeat_char, Z2Nat.id by lia.
    destruct model_class; reflexivity. }
  split; [exact L|].
  rewrite (get_completion_over _ _ _ _ L). split; [reflexivity|discriminate].
Qed.

(* ================================================================== *)
(** ** The generation call *)
(* ================================================================== *)

(** C1.  Whatever a call of [_copiler] does, every write of a candidate
    to the cache file comes right after the answer of the classifier on
    that candidate, the candidate has passed both scans and the answer
    leaves no label once the overrides and [NONE] are taken out; no file
    changes without such a write; and on a generation call (forced, or
    nothing usable in the cache) an object is returned only for a
    candidate that passed in the same way and was written. *)
Theorem candidate_checked_before_use (specification : string)
    (force_copilation : bool)
    (module_whitelist function_whitelist unsafe_overrides : str_or_list)
    (w w' : world) (r : result (pyval pyobj)) :
  _copiler specification force_copilation module_whitelist
    function_whitelist unsafe_overrides w = (r, w') ->
  exists evs,
    trace w' = (trace w ++ evs)%list
    /\ checked_writes (as_list module_whitelist) (as_list function_whitelist)
         (as_list unsafe_overrides) evs
    /\ (forall filename source,
          In (WriteCopiled filename source) evs ->
          exists answer,
            In (Completion (safety_request source) answer) evs
            /\ passes (as_list module_whitelist) (as_list function_whitelist)
                 (as_list unsafe_overrides) source answer)
    /\ ((forall filename source, ~ In (WriteCopiled filename source) evs) ->
        files w' = files w)
    /\ (forall name existing o,
          _parse_callable_name specification = Return name ->
          cached name w = Return existing ->
          force_copilation || negb (bool_of existing) = true ->
          r = Return (PyObject o) ->
          exists source answer,
            passes (as_list module_whitelist) (as_list function_whitelist)
              (as_list unsafe_overrides) source answer
            /\ _source_to_object source = Return (PyObject o)
            /\ In (Completion (safety_request source) answer) evs
            /\ In (WriteCopiled (copilations_path name) source) evs).
Proof.
  intros H.
  assert (Stop : w' = w ->
    exists evs,
      trace w' = (trace w ++ evs)%list
      /\ checked_writes (as_list module_whitelist)
           (as_list function_whitelist) (as_list unsafe_overrides) evs
      /\ (forall filename source,
            In (WriteCopiled filename source) evs ->
            exists answer,
              In (Completion (safety_request source) answer) evs
              /\ passes (as_list module_whitelist)
                   (as_list function_whitelist)
                   (as_list unsafe_overrides) source answer)
      /\ ((forall filename source,
             ~ In (WriteCopiled filename source) evs) ->
          files w' = files w)).
  { intros ->. exists []. rewrite app_nil_r.
    split; [reflexivity|]. split; [constructor|].
    split; [intros ? ? []|reflexivity]. }
  destruct (_parse_callable_name specification) as [name|e] eqn:Hn.
  2:{ rewrite (copiler_no_name _ _ _ _ _ _ _ Hn) in H. injection H as <- <-.
      destruct Stop as (evs & ? & ? & ? & ?); [reflexivity|]. exists evs.
      repeat split; auto. intros ? ? ? [=]. }
  destruct (cached name w) as [existing|e] eqn:Hc.
  2:{ rewrite (copiler_no_lookup _ _ _ _ _ _ _ _ Hn Hc) in H.
      injection H as <- <-.
      destruct Stop as (evs & ? & ? & ? & ?); [reflexivity|]. exists evs.
      repeat split; auto. intros ? ? ? [= <-] ?. congruence. }
  rewrite (copiler_run _ _ _ _ _ _ _ _ Hn Hc) in H.
  destruct (force_copilation || negb (bool_of existing)) eqn:Mode.
  2:{ injection H as <- <-.
      destruct Stop as (evs & ? & ? & ? & ?); [reflexivity|]. exists evs.
      repeat split; auto. intros ? ? ? [= <-] Hc' ?.
      rewrite Hc in Hc'. injection Hc' as <-. congruence. }
  assert (G : exists evs,
    trace w' = (trace w ++ evs)%list
    /\ checked_writes (as_list module_whitelist)
         (as_list function_whitelist) (as_list unsafe_overrides) evs
    /\ ((forall filename source, ~ In (WriteCopiled filename source) evs) ->
        files w' = files w)
    /\ (forall o, r = Return (PyObject o) ->
        exists source answer,
          passes (as_list module_whitelist) (as_list function_whitelist)
            (as_list unsafe_overrides) source answer
          /\ _source_to_object source = Return (PyObject o)
          /\ In (WriteCopiled (copilations_path name) source) evs)).
  { destruct (generate_cases _ _ _ _ _ _ _ _ _ H)
      as [(_ & -> & ->)|(_ & [(_ & -> & ->)|(_ & Hl)])].
    - exists []. rewrite app_nil_r.
      repeat split; auto; [constructor | discriminate].
    - exists [Completion (clarity_request specification)
                (clarity_at specification w)].
      repeat split; auto; [|discriminate].
      apply checked_other; [discriminate | constructor].
    - destruct (generation_loop_steps _ _ _ _ _ _ _ _ _ _ _ _ Hl)
        as (evs & (T & C & _ & _ & F) & R).
      exists (Completion (clarity_request specification)
                (clarity_at specification w) :: evs).
      split; [|split; [|split]].
      + rewrite T. unfold after_clarity. simpl.
        now rewrite <- app_assoc.
      + apply checked_other; [discriminate | assumption].
      + intros N. rewrite F; [reflexivity|].
        intros f c Hin. apply (N f c). now right.
      + intros o Ho. destruct (R o Ho) as (c & a & ? & ? & ?).
        exists c, a. split; [assumption|]. split; [assumption | now right]. }
  destruct G as (evs & T & C & F & R). exists evs.
  split; [assumption|]. split; [assumption|].
  split; [now apply checked_writes_in|]. split; [assumption|].
  intros name' existing' o [= <-] _ _ Ho.
  destruct (R o Ho) as (c & a & Hok & So & Hin).
  destruct (checked_writes_in _ _ _ _ C _ _ Hin) as (a' & Ha & Hok').
  exists c, a'. auto.
Qed.

(** C8.  On a generation call the clarity check is made at most once,
    and when the specification fits the size guard it is the first event
    of the call and the only clarity check.  If its answer starts with
    [UNCLEAR] the call raises [SpecificationUnclearError] with the name
    of the callable and the whole answer, and nothing else happened: no
    implementation was asked for. *)
Theorem unclear_specification_stops (specification : string)
    (force_copilation : bool)
    (module_whitelist function_whitelist unsafe_overrides : str_or_list)
    (w w' : world) (r : result (pyval pyobj)) (name : option string)
    (existing : pyval pyobj) :
  _parse_callable_name specification = Return name ->
  cached name w = Return existing ->
  force_copilation || negb (bool_of existing) = true ->
  _copiler specification force_copilation module_whitelist
    function_whitelist unsafe_overrides w = (r, w') ->
  exists evs,
    trace w' = (trace w ++ evs)%list
    /\ (List.length (requests_with assess_specification evs) <= 1)%nat
    /\ ((len specification <= max_characters (models fast))%Z ->
        exists rest,
          evs = Completion (clarity_request specification)
                  (clarity_at specification w) :: rest
          /\ requests_with assess_specification rest = []
          /\ (startswith (clarity_at specification w) "UNCLEAR" = true ->
              r = Raise (SpecificationUnclearError name
                           (clarity_at specification w))
              /\ rest = [])).
Proof.
  intros Hn Hc Mode H.
  rewrite (copiler_run _ _ _ _ _ _ _ _ Hn Hc), Mode in H.
  destruct (generate_cases _ _ _ _ _ _ _ _ _ H)
    as [(L & -> & ->)|(_ & [(U & -> & ->)|(U & Hl)])].
  - exists []. rewrite app_nil_r. split; [reflexivity|].
    split; [simpl; lia | lia].
  - exists [Completion (clarity_request specification)
              (clarity_at specification w)].
    split; [reflexivity|]. split; [simpl; lia|]. intros _.
    exists []. auto.
  - destruct (generation_loop_steps _ _ _ _ _ _ _ _ _ _ _ _ Hl)
      as (evs & (T & _ & Q & _ & _) & _).
    exists (Completion (clarity_request specification)
              (clarity_at specification w) :: evs).
    split; [|split].
    + rewrite T. unfold after_clarity. simpl. now rewrite <- app_assoc.
    + change (requests_with assess_specification
                (Completion (clarity_request specification)
                   (clarity_at specification w) :: evs))
        with (clarity_request specification
                :: requests_with assess_specification evs).
      rewrite Q. simpl. lia.
    + intros _. exists evs. split; [reflexivity|]. split; [assumption|].
      congruence.
Qed.

(** C4, as the code has it.  On a generation call whose specification
    is clear: a candidate that passes the gate (so it parses) but cannot
    be turned into an object, for another reason than a missing module,
    does not end the call; the loop asks again, twice in all.  If the
    second candidate fails in the same way the call prints the report
    and that candidate and returns [None]; if the second candidate is
    loaded and written the call returns its object, and exactly two
    implementations were asked for. *)
Theorem retry_after_failed_load (specification : string)
    (force_copilation : bool)
    (module_whitelist function_whitelist unsafe_overrides : str_or_list)
    (w : world) (name : option string) (existing : pyval pyobj) (e1 : exn) :
  _parse_callable_name specification = Return name ->
  cached name w = Return existing ->
  force_copilation || negb (bool_of existing) = true ->
  (len specification <= max_characters (models best))%Z ->
  startswith (clarity_at specification w) "UNCLEAR" = false ->
  let mw := as_list module_whitelist in
  let fw := as_list function_whitelist in
  let uo := as_list unsafe_overrides in
  let w1 := after_clarity specification w in
  safe_candidate specification mw fw uo w1 ->
  _source_to_object (candidate_at specification w1) = Raise e1 ->
  (forall module_name, e1 <> ModuleNotFoundError module_name) ->
  let w2 := after_gate specification w1 in
  safe_candidate specification mw fw uo w2 ->
  let second := candidate_at specification w2 in
  let w3 := after_gate specification w2 in
  (forall e2,
      _source_to_object second = Raise e2 ->
      (forall module_name, e2 <> ModuleNotFoundError module_name) ->
      _copiler specification force_copilation module_whitelist
        function_whitelist unsafe_overrides w
      = (Return PyNone, log (Print second) (log (Print bad_source_line) w3)))
  /\ (forall v w4,
        load_and_write name (copilations_path name) second w3
        = (Return v, w4) ->
        _copiler specification force_copilation module_whitelist
          function_whitelist unsafe_overrides w = (Return v, w4)
        /\ _source_to_object second = Return v
        /\ requests_with copile_from_specification (trace w4)
           = (requests_with copile_from_specification (trace w)
              ++ [generate_request specification;
                  generate_request specification])%list).
Proof.
  intros Hn Hc Mode L U mw fw uo w1 S1 So1 N1 w2 S2 second w3.
  assert (G : _copiler specification force_copilation module_whitelist
                function_whitelist unsafe_overrides w
              = generation_loop specification name (copilations_path name)
                  mw fw uo 1 1 (Some (candidate_at specification w1)) w2).
  { rewrite (copiler_run _ _ _ _ _ _ _ _ Hn Hc), Mode.
    unfold generate, _review_specification. unfold bind at 1 2.
    rewrite get_completion_within by exact L. cbv zeta.
    fold (clarity_request specification) (clarity_at specification w)
         (after_clarity specification w).
    rewrite U. fold w1.
    apply (pass_retries specification name (copilations_path name) mw fw uo
             1 0 None w1 e1); auto; unfold max_tries; lia. }
  split.
  - intros e2 So2 N2. rewrite G.
    rewrite (pass_retries specification name (copilations_path name) mw fw uo
               0 1 _ w2 e2); auto; unfold max_tries; lia.
  - intros v w4 R. split; [|split].
    + rewrite G.
      apply (pass_returns specification name (copilations_path name) mw fw uo
               0 1 _ w2 w4 v); auto; unfold max_tries; lia.
    + destruct (load_and_write_cases name (copilations_path name) second w3)
        as [(e & _ & T)|(v' & w' & So & [[T _]|(e & T & _)])];
        fold w3 in R; congruence.
    + destruct (load_and_write_cases name (copilations_path name) second w3)
        as [(e & _ & T)|(v' & w' & So & [[T Tr]|(e & T & _)])];
        try congruence.
      assert (w' = w4) by congruence. subst w'. rewrite Tr.
      unfold w3, after_gate, after_verdict, after_asking. simpl.
      fold w2. unfold w2, after_gate, after_verdict, after_asking. simpl.
      fold w1. unfold w1, after_clarity. simpl.
      rewrite !requests_with_app. simpl.
      rewrite app_nil_r, <- !app_assoc. reflexivity.
Qed.


(* ================================================================== *)
(** ** More on the scans and the gate *)
(* ================================================================== *)

Lemma contains_inside (s sub a b : string) :
  contains s sub = true -> contains (a ++ s ++ b) sub = true.
Proof.
  rewrite !contains_iff. intros (x & y & ->).
  exists (a ++ x), (y ++ b). now rewrite !PyText.append_assoc.
Qed.

(** X1.  Text put before and after a source hides nothing from the
    module scan: every module reported for the source is reported for
    the longer text. *)
Theorem module_scan_survives_wrapping (source before after : string)
    (blacklist : list string) (m : string) :
  In m (check_for_blacklisted_modules_used source blacklist) ->
  In m (check_for_blacklisted_modules_used (before ++ source ++ after)
          blacklist).
Proof.
  rewrite !in_modules_used. intros [Hb Hi]. split; [exact Hb|].
  unfold imports_module in *. apply orb_true_iff in Hi.
  apply orb_true_iff. destruct Hi as [Hi|Hi]; [left | right];
    now apply contains_inside.
Qed.

Lemma incl_module_blacklist (mw mw' : list string) :
  incl mw mw' -> incl (module_blacklist mw') (module_blacklist mw).
Proof.
  intros H m. rewrite !in_module_blacklist. intros [Hb Hw].
  split; [exact Hb|]. intros Hin. apply Hw, H, Hin.
Qed.

Lemma incl_function_blacklist (fw fw' : list string) :
  incl fw fw' -> incl (function_blacklist fw') (function_blacklist fw).
Proof.
  intros H f. rewrite !in_function_blacklist. intros [Hb Hw].
  split; [exact Hb|]. intros Hin. apply Hw, H, Hin.
Qed.

Lemma empty_of_incl_nil {A : Type} (l : list A) : incl l [] -> l = [].
Proof.
  destruct l as [|x l]; [reflexivity|]. intros H. destruct (H x). now left.
Qed.

Lemma scans_shrink (source : string) (mw mw' fw fw' : list string) :
  incl mw mw' ->
  incl fw fw' ->
  incl (check_for_blacklisted_modules_used source (module_blacklist mw'))
       (check_for_blacklisted_modules_used source (module_blacklist mw))
  /\ (forall found,
        check_for_blacklisted_functions_used source (function_blacklist fw)
        = Return found ->
        exists found',
          check_for_blacklisted_functions_used source
            (function_blacklist fw') = Return found'
          /\ incl found' found).
Proof.
  intros Hm Hf. split.
  - intros m. rewrite !in_modules_used. intros [Hb Hi].
    split; [|exact Hi]. now apply (incl_module_blacklist _ _ Hm).
  - unfold check_for_blacklisted_functions_used.
    destruct (ast_parse source) as [body|]; [|discriminate].
    intros found [= <-]. eexists. split; [reflexivity|].
    intros f Hin.
    apply in_find_function_calls in Hin as [Hin|[Hb Hc]]; [destruct Hin|].
    apply (in_find_function_calls _ (Module body) [] f).
    right. split; [|exact Hc].
    now apply (incl_function_blacklist _ _ Hf).
Qed.

(** X2.  A longer whitelist can only take reports away, from the module
    scan and from the function scan; and once every name of a denylist
    is whitelisted its scan reports nothing, whatever the source. *)
Theorem whitelists_only_remove_reports (source : string)
    (mw mw' fw fw' : list string) :
  incl mw mw' ->
  incl fw fw' ->
  incl (check_for_blacklisted_modules_used source (module_blacklist mw'))
       (check_for_blacklisted_modules_used source (module_blacklist mw))
  /\ (forall found,
        check_for_blacklisted_functions_used source (function_blacklist fw)
        = Return found ->
        exists found',
          check_for_blacklisted_functions_used source
            (function_blacklist fw') = Return found'
          /\ incl found' found)
  /\ (incl module_blacklist_txt mw' ->
      check_for_blacklisted_modules_used source (module_blacklist mw') = [])
  /\ (incl function_blacklist_txt fw' ->
      forall found',
        check_for_blacklisted_functions_used source
          (function_blacklist fw') = Return found' ->
        found' = []).
Proof.
  intros Hm Hf. destruct (scans_shrink source mw mw' fw fw' Hm Hf) as [A B].
  split; [exact A|]. split; [exact B|]. split.
  - intros Hall. apply empty_of_incl_nil. intros m Hin.
    apply in_modules_used in Hin as [Hin _].
    apply in_module_blacklist in Hin as [Hb Hw]. destruct (Hw (Hall m Hb)).
  - intros Hall found'. unfold check_for_blacklisted_functions_used.
    destruct (ast_parse source) as [body|]; [|discriminate].
    intros [= <-]. apply empty_of_incl_nil. intros f Hin.
    apply (in_find_function_calls _ (Module body) [] f) in Hin
      as [Hin|[Hin _]]; [destruct Hin|].
    apply in_function_blacklist in Hin as [Hb Hw]. destruct (Hw (Hall f Hb)).
Qed.

(** X3.  Broader whitelists and overrides never turn a pass into a
    failure: a source the gate lets through is let through, with the
    same request and the same answer, when names are added to the module
    whitelist, the function whitelist or the unsafe overrides. *)
Theorem gate_pass_survives_broader_overrides (source : string)
    (mw mw' fw fw' uo uo' : list string) (w w' : world) :
  _review_safety source mw fw uo w = (Return tt, w') ->
  incl mw mw' -> incl fw fw' -> incl uo uo' ->
  _review_safety source mw' fw' uo' w = (Return tt, w').
Proof.
  intros H Hm Hf Ho.
  destruct (review_safety_cases mw fw uo source w)
    as [[e G]|(r & G & L & Sm & Sf & [[-> R]|[issues ->]])];
    rewrite G in H; try discriminate.
  injection H as <-.
  destruct (scans_shrink source mw mw' fw fw' Hm Hf)
    as (Im & If).
  assert (Sm' : check_for_blacklisted_modules_used source
                  (module_blacklist mw') = []).
  { apply empty_of_incl_nil. now rewrite <- Sm. }
  destruct (If [] Sf) as (found' & Sf' & I').
  apply empty_of_incl_nil in I'. subst found'.
  rewrite (gate_semantic source mw' fw' uo' w Sm' Sf' L).
  assert (R' : remaining_issues
                 (chat_completion (asked (trace w)) (safety_request source))
                 uo' = []).
  { apply empty_of_incl_nil. intros label Hin.
    apply in_remaining_issues in Hin as (Hs & Hn & Hne).
    assert (Hin : In label
                    (remaining_issues
                       (chat_completion (asked (trace w))
                          (safety_request source)) uo)).
    { apply in_remaining_issues. repeat split; auto. }
    now rewrite R in Hin. }
  rewrite R'. reflexivity.
Qed.

(* ================================================================== *)
(** ** More on the generation call *)
(* ================================================================== *)

(** A generation call whose specification fits the size guard and is
    found clear enters the loop right after the clarity check. *)
Lemma copiler_enters_loop (specification : string) (force_copilation : bool)
    (module_whitelist function_whitelist unsafe_overrides : str_or_list)
    (w : world) (name : option string) (existing : pyval pyobj) :
  _parse_callable_name specification = Return name ->
  cached name w = Return existing ->
  force_copilation || negb (bool_of existing) = true ->
  (len specification <= max_characters (models best))%Z ->
  startswith (clarity_at specification w) "UNCLEAR" = false ->
  _copiler specification force_copilation module_whitelist
    function_whitelist unsafe_overrides w
  = generation_loop specification name (copilations_path name)
      (as_list module_whitelist) (as_list function_whitelist)
      (as_list unsafe_overrides) max_tries 0 None
      (after_clarity specification w).
Proof.
  intros Hn Hc Mode L U.
  rewrite (copiler_run _ _ _ _ _ _ _ _ Hn Hc), Mode.
  unfold generate, _review_specification. unfold bind at 1 2.
  rewrite get_completion_within by exact L. cbv zeta.
  fold (clarity_request specification) (clarity_at specification w)
       (after_clarity specification w).
  now rewrite U.
Qed.

(** A pass whose candidate the gate rejects ends the loop with the
    error of the gate. *)
Lemma pass_rejected (specification : string) (name : option string)
    (filename : string) (mw fw uo : list string) (fuel tries : nat)
    (last_source : option string) (w w' : world) (e : exn) :
  (tries < max_tries)%nat ->
  (len specification <= max_characters (models best))%Z ->
  _review_safety (candidate_at specification w) mw fw uo
    (after_asking specification w) = (Raise e, w') ->
  generation_loop specification name filename mw fw uo (S fuel) tries
    last_source w = (Raise e, w').
Proof.
  intros T L G. simpl. apply Nat.ltb_lt in T. rewrite T.
  unfold bind at 1. rewrite (get_completion_within _ _ _ _ L). cbv zeta.
  fold (generate_request specification) (candidate_at specification w)
       (after_asking specification w).
  unfold bind at 1. now rewrite G.
Qed.

(** X4.  A candidate the safety gate rejects is not retried.  On a
    generation call with a clear specification, whatever the gate raises
    on the first candidate (a denylist error, the verdict of the
    classifier, the syntax error of the function scan) is what the call
    raises, after one request for an implementation; no file has
    changed. *)
Theorem gate_error_ends_the_call (specification : string)
    (force_copilation : bool)
    (module_whitelist function_whitelist unsafe_overrides : str_or_list)
    (w w' : world) (name : option string) (existing : pyval pyobj)
    (e : exn) :
  _parse_callable_name specification = Return name ->
  cached name w = Return existing ->
  force_copilation || negb (bool_of existing) = true ->
  (len specification <= max_characters (models best))%Z ->
  startswith (clarity_at specification w) "UNCLEAR" = false ->
  let w1 := after_clarity specification w in
  let w2 := after_asking specification w1 in
  _review_safety (candidate_at specification w1)
    (as_list module_whitelist) (as_list function_whitelist)
    (as_list unsafe_overrides) w2 = (Raise e, w') ->
  _copiler specification force_copilation module_whitelist
    function_whitelist unsafe_overrides w = (Raise e, w')
  /\ files w' = files w
  /\ requests_with copile_from_specification (trace w')
     = (requests_with copile_from_specification (trace w)
        ++ [generate_request specification])%list
  /\ (forall filename source, ~ In (WriteCopiled filename source) (trace w) ->
      ~ In (WriteCopiled filename source) (trace w')).
Proof.
  intros Hn Hc Mode L U w1 w2 G.
  split.
  - rewrite (copiler_enters_loop _ _ _ _ _ _ _ _ Hn Hc Mode L U).
    apply pass_rejected; [unfold max_tries; lia | exact L | exact G].
  - assert (W : w' = w2
                \/ exists answer,
                     w' = log (Completion
                                 (safety_request
                                    (candidate_at specification w1)) answer)
                            w2).
    { destruct (review_safety_cases (as_list module_whitelist)
                  (as_list function_whitelist) (as_list unsafe_overrides)
                  (candidate_at specification w1) w2)
        as [[e' G']|(r & G' & _)]; fold w2 in G; rewrite G' in G;
        injection G as _ <-; [now left | right; eauto]. }
    destruct W as [->|[answer ->]]; unfold w2, w1, after_asking,
      after_clarity; simpl; rewrite !requests_with_app; simpl;
      rewrite ?app_nil_r, <- ?app_assoc; (split; [reflexivity|]);
      (split; [reflexivity|]); intros f s N Hin;
      repeat (apply in_app_or in Hin as [Hin|Hin]);
      try (now apply N); simpl in Hin;
      repeat (destruct Hin as [Hin|Hin]; try discriminate); auto.
Qed.

(** X5.  A missing module is not retried either.  When the first
    candidate passes the gate and running it raises
    [ModuleNotFoundError], the call raises
    [CopiledSourceCodeNeedsModule] with the name of the module, after
    one request for an implementation and without a write. *)
Theorem missing_module_ends_the_call (specification : string)
    (force_copilation : bool)
    (module_whitelist function_whitelist unsafe_overrides : str_or_list)
    (w : world) (name : option string) (existing : pyval pyobj)
    (module_name : string) :
  _parse_callable_name specification = Return name ->
  cached name w = Return existing ->
  force_copilation || negb (bool_of existing) = true ->
  (len specification <= max_characters (models best))%Z ->
  startswith (clarity_at specification w) "UNCLEAR" = false ->
  let w1 := after_clarity specification w in
  safe_candidate specification (as_list module_whitelist)
    (as_list function_whitelist) (as_list unsafe_overrides) w1 ->
  _source_to_object (candidate_at specification w1)
  = Raise (ModuleNotFoundError module_name) ->
  _copiler specification force_copilation module_whitelist
    function_whitelist unsafe_overrides w
  = (Raise (CopiledSourceCodeNeedsModule module_name),
     after_gate specification w1).
Proof.
  intros Hn Hc Mode L U w1 S So.
  rewrite (copiler_enters_loop _ _ _ _ _ _ _ _ Hn Hc Mode L U). fold w1.
  unfold max_tries.
  rewrite (pass_reaches_try specification name (copilations_path name)
             _ _ _ 1 0 None w1); [|unfold max_tries; lia | exact L | exact S].
  cbv zeta. unfold try_except.
  destruct (load_and_write_cases name (copilations_path name)
              (candidate_at specification w1) (after_gate specification w1))
    as [(e & So' & ->)|(v & w' & So' & _)]; [|congruence].
  assert (e = ModuleNotFoundError module_name) by congruence. now subst e.
Qed.

(** X6.  The call that succeeds at once.  When the first candidate
    passes the gate, loads and is written, the call returns its object
    and has sent exactly three requests, in this order: the clarity
    check, the request for an implementation, the safety check of the
    cleaned answer; then come the write and one printed line. *)
Theorem first_candidate_accepted (specification : string)
    (force_copilation : bool)
    (module_whitelist function_whitelist unsafe_overrides : str_or_list)
    (w w' : world) (name : option string) (existing v : pyval pyobj) :
  _parse_callable_name specification = Return name ->
  cached name w = Return existing ->
  force_copilation || negb (bool_of existing) = true ->
  (len specification <= max_characters (models best))%Z ->
  startswith (clarity_at specification w) "UNCLEAR" = false ->
  let w1 := after_clarity specification w in
  let source := candidate_at specification w1 in
  safe_candidate specification (as_list module_whitelist)
    (as_list function_whitelist) (as_list unsafe_overrides) w1 ->
  load_and_write name (copilations_path name) source
    (after_gate specification w1) = (Return v, w') ->
  _copiler specification force_copilation module_whitelist
    function_whitelist unsafe_overrides w = (Return v, w')
  /\ _source_to_object source = Return v
  /\ exists answer verdict line,
       source = _clean_response answer
       /\ trace w'
          = (trace w
             ++ [Completion (clarity_request specification)
                   (clarity_at specification w);
                 Completion (generate_request specification) answer;
                 Completion (safety_request source) verdict;
                 WriteCopiled (copilations_path name) source;
                 Print line])%list.
Proof.
  intros Hn Hc Mode L U w1 source S R.
  split; [|split].
  - rewrite (copiler_enters_loop _ _ _ _ _ _ _ _ Hn Hc Mode L U). fold w1.
    apply (pass_returns specification name (copilations_path name) _ _ _
             1 0 None w1 w' v); [unfold max_tries; lia | exact L | exact S|].
    exact R.
  - destruct (load_and_write_cases name (copilations_path name) source
                (after_gate specification w1))
      as [(e & _ & T)|(v' & w'' & So & [[T _]|(e & T & _)])]; congruence.
  - destruct (load_and_write_cases name (copilations_path name) source
                (after_gate specification w1))
      as [(e & _ & T)|(v' & w'' & So & [[T Tr]|(e & T & _)])];
      try congruence.
    assert (w'' = w') by congruence. subst w''.
    do 3 eexists. split; [reflexivity|]. rewrite Tr.
    unfold after_gate, after_verdict, after_asking, w1, after_clarity.
    simpl. rewrite <- !app_assoc. reflexivity.
Qed.

(** X7.  Before anything else [_copiler] parses the specification and
    loads the cache file, forced or not.  If the specification does not
    parse, or the cache file is there and running it raises (anything
    but [FileNotFoundError], which counts as a miss), the call raises
    that error and nothing has happened: no request, no write, no
    print. *)
Theorem early_errors_leave_no_trace (specification : string)
    (force_copilation : bool)
    (module_whitelist function_whitelist unsafe_overrides : str_or_list)
    (w : world) (e : exn) :
  _parse_callable_name specification = Raise e
  \/ (exists name text,
        _parse_callable_name specification = Return name
        /\ files w (copilations_path name) = Some text
        /\ exec_module text = Raise e
        /\ e <> FileNotFoundError) ->
  _copiler specification force_copilation module_whitelist
    function_whitelist unsafe_overrides w = (Raise e, w).
Proof.
  intros [Hn|(name & text & Hn & Hf & He & N)].
  - now apply copiler_no_name.
  - apply (copiler_no_lookup _ _ _ _ _ _ name); [exact Hn|].
    unfold cached, _get_existing_copilation. rewrite Hf, He.
    destruct e; try reflexivity. now destruct N.
Qed.

(** *** What a call sends and writes *)

(** An event of a generation loop, among the events [all] of the run: a
    request for an implementation of the specification, a safety check
    of the cleaned answer to such a request, a write to the cache file,
    or a printed line. *)
Definition expected_event (specification filename : string)
    (all : list event) (e : event) : Prop :=
  match e with
  | Completion q _ =>
      q = generate_request specification
      \/ exists answer,
           In (Completion (generate_request specification) answer) all
           /\ q = safety_request (_clean_response answer)
  | WriteCopiled f _ => f = filename
  | Print _ => True
  end.

Definition tidy (specification filename : string) (evs : list event)
  : Prop :=
  forall e, In e evs -> expected_event specification filename evs e.

Lemma expected_event_more (specification filename : string)
    (all all' : list event) (e : event) :
  incl all all' ->
  expected_event specification filename all e ->
  expected_event specification filename all' e.
Proof.
  intros I. destruct e as [q a|f s|t]; simpl; auto.
  intros [H|(answer & Hin & H)]; [now left | right].
  exists answer. split; [now apply I | exact H].
Qed.

Lemma tidy_app (specification filename : string) (a b : list event) :
  tidy specification filename a -> tidy specification filename b ->
  tidy specification filename (a ++ b).
Proof.
  intros Ha Hb e Hin. apply in_app_or in Hin as [Hin|Hin].
  - apply (expected_event_more _ _ a); [apply incl_appl, incl_refl|].
    now apply Ha.
  - apply (expected_event_more _ _ b); [apply incl_appr, incl_refl|].
    now apply Hb.
Qed.

Lemma asked_app (a b : list event) :
  asked (a ++ b) = (asked a ++ asked b)%list.
Proof. unfold asked. apply flat_map_app. Qed.

Section Requests.

Variable specification : string.
Variable callable_name : option string.
Variable copilations_filename : string.
Variable module_whitelist function_whitelist unsafe_overrides : list string.

(** The events one pass can add before the loop goes on or stops. *)
Lemma tidy_pass (response verdict : string) (tail : list event) :
  tail = []
  \/ tail = [WriteCopiled copilations_filename (_clean_response response)]
  \/ (exists line,
        tail = [WriteCopiled copilations_filename (_clean_response response);
                Print line]) ->
  tidy specification copilations_filename
    (Completion (generate_request specification) response
       :: Completion (safety_request (_clean_response response)) verdict
       :: tail).
Proof.
  intros Ht e [<-|[<-|Hin]].
  - now left.
  - right. exists response. split; [now left | reflexivity].
  - destruct Ht as [->|[->|[line ->]]].
    + destruct Hin.
    + destruct Hin as [<-|[]]. reflexivity.
    + destruct Hin as [<-|[<-|[]]]; reflexivity.
Qed.

Lemma generation_loop_requests (fuel : nat) :
  forall (tries : nat) (last_source : option string) (w w' : world)
         (r : result (pyval pyobj)),
    generation_loop specification callable_name copilations_filename
      module_whitelist function_whitelist unsafe_overrides fuel tries
      last_source w = (r, w') ->
    exists evs,
      trace w' = (trace w ++ evs)%list
      /\ tidy specification copilations_filename evs
      /\ (List.length (asked evs) <= 2 * fuel)%nat.
Proof.
  assert (Report : forall n last_source w w' r,
            report_bad_source last_source w = (r, w') ->
            exists evs,
              trace w' = (trace w ++ evs)%list
              /\ tidy specification copilations_filename evs
              /\ (List.length (asked evs) <= n)%nat).
  { intros n last_source w w' r. rewrite report_bad_source_run. cbv zeta.
    destruct last_source as [source|]; intros [= <- <-].
    - exists [Print bad_source_line; Print source]. split.
      + simpl. now rewrite <- app_assoc.
      + split; [|simpl; lia]. intros e [<-|[<-|[]]]; exact I.
    - exists [Print bad_source_line]. split; [reflexivity|].
      split; [|simpl; lia]. intros e [<-|[]]. exact I. }
  induction fuel as [|fuel IH]; intros tries last_source w w' r H.
  - simpl in H. apply (Report _ _ _ _ _ H).
  - simpl in H. destruct (tries <? max_tries)%nat;
      [|apply (Report _ _ _ _ _ H)].
    unfold bind at 1 in H.
    destruct (Z.le_gt_cases (len specification) (max_characters (models best)))
      as [L|L].
    2:{ rewrite get_completion_over in H by lia. injection H as <- <-.
        exists []. rewrite app_nil_r. split; [reflexivity|].
        split; [intros e [] | simpl; lia]. }
    rewrite (get_completion_within _ _ _ _ L) in H. cbv zeta in H.
    fold (generate_request specification) in H.
    set (response := chat_completion (asked (trace w))
                       (generate_request specification)) in H.
    set (source := _clean_response response) in H.
    set (w1 := log (Completion (generate_request specification) response) w)
      in H.
    unfold bind at 1 in H.
    assert (One : tidy specification copilations_filename
                    [Completion (generate_request specification) response])
      by (intros e [<-|[]]; now left).
    destruct (review_safety_cases module_whitelist function_whitelist
                unsafe_overrides source w1)
      as [[e G]|(r0 & G & _ & _ & _ & [[-> _]|[issues ->]])];
      rewrite G in H.
    + injection H as <- <-. eexists. split; [reflexivity|].
      split; [exact One | simpl; lia].
    + set (verdict := chat_completion (asked (trace w1))
                        (safety_request source)) in *.
      set (w2 := log (Completion (safety_request source) verdict) w1) in *.
      unfold try_except in H.
      destruct (load_and_write_cases callable_name copilations_filename
                  source w2)
        as [(e & So & T)|(v & w3 & So & [[T Tr]|(e & T & Tr)])];
        rewrite T in H.
      * destruct (except_cases e
                    (generation_loop specification callable_name
                       copilations_filename module_whitelist
                       function_whitelist unsafe_overrides fuel
                       (tries + 1)%nat (Some source)))
          as [(name & Ee & E)|(N & E)]; rewrite E in H.
        -- injection H as <- <-.
           exists [Completion (generate_request specification) response;
                   Completion (safety_request source) verdict].
           split; [simpl; now rewrite <- app_assoc|].
           split; [apply tidy_pass; now left | simpl; lia].
        -- destruct (IH _ _ _ _ _ H) as (evs & T3 & Ti & N3).
           exists ([Completion (generate_request specification) response;
                    Completion (safety_request source) verdict]
                     ++ evs)%list.
           split; [rewrite T3; simpl; now rewrite <- !app_assoc|].
           split; [apply tidy_app; [apply tidy_pass; now left | exact Ti]|].
           rewrite asked_app, length_app. simpl. lia.
      * injection H as <- <-. eexists.
        split; [rewrite Tr; simpl; rewrite <- !app_assoc; reflexivity|].
        split; [apply tidy_pass; right; right; eauto | simpl; lia].
      * destruct (except_cases e
                    (generation_loop specification callable_name
                       copilations_filename module_whitelist
                       function_whitelist unsafe_overrides fuel
                       (tries + 1)%nat (Some source)))
          as [(name & Ee & E)|(N & E)]; rewrite E in H.
        -- injection H as <- <-. eexists.
           split; [rewrite Tr; simpl; rewrite <- !app_assoc; reflexivity|].
           split; [apply tidy_pass; right; now left | simpl; lia].
        -- destruct (IH _ _ _ _ _ H) as (evs & T3 & Ti & N3).
           exists ([Completion (generate_request specification) response;
                    Completion (safety_request source) verdict;
                    WriteCopiled copilations_filename source]
                     ++ evs)%list.
           split; [rewrite T3, Tr; simpl; now rewrite <- !app_assoc|].
           split; [apply tidy_app;
                   [apply tidy_pass; right; now left | exact Ti]|].
           rewrite asked_app, length_app. simpl. lia.
    + injection H as <- <-.
      exists [Completion (generate_request specification) response;
              Completion (safety_request source)
                (chat_completion (asked (trace w1)) (safety_request source))].
      split; [simpl; now rewrite <- app_assoc|].
      split; [apply tidy_pass; now left | simpl; lia].
Qed.

End Requests.

(** X8.  What a call of [_copiler] can send and write.  Every request
    of the call is the clarity check of the specification (fast tier),
    a request for an implementation of the specification (best tier;
    a retry repeats the very same request), or the safety check (best
    tier) of the cleaned answer to such a request made in the same
    call.  Every write goes to the cache file of the callable.  The
    call sends at most five requests. *)
Theorem requests_of_a_call (specification : string)
    (force_copilation : bool)
    (module_whitelist function_whitelist unsafe_overrides : str_or_list)
    (w w' : world) (r : result (pyval pyobj)) :
  _copiler specification force_copilation module_whitelist
    function_whitelist unsafe_overrides w = (r, w') ->
  exists evs,
    trace w' = (trace w ++ evs)%list
    /\ (forall q a,
          In (Completion q a) evs ->
          q = clarity_request specification
          \/ q = generate_request specification
          \/ exists answer,
               In (Completion (generate_request specification) answer) evs
               /\ q = safety_request (_clean_response answer))
    /\ (forall filename source name,
          In (WriteCopiled filename source) evs ->
          _parse_callable_name specification = Return name ->
          filename = copilations_path name)
    /\ (List.length (asked evs) <= 5)%nat.
Proof.
  intros H.
  assert (Stop : w' = w ->
    exists evs,
      trace w' = (trace w ++ evs)%list
      /\ (forall q a,
            In (Completion q a) evs ->
            q = clarity_request specification
            \/ q = generate_request specification
            \/ exists answer,
                 In (Completion (generate_request specification) answer) evs
                 /\ q = safety_request (_clean_response answer))
      /\ (forall filename source name,
            In (WriteCopiled filename source) evs ->
            _parse_callable_name specification = Return name ->
            filename = copilations_path name)
      /\ (List.length (asked evs) <= 5)%nat).
  { intros ->. exists []. rewrite app_nil_r. split; [reflexivity|].
    split; [intros ? ? []|]. split; [intros ? ? ? []|]. simpl. lia. }
  destruct (_parse_callable_name specification) as [name|e] eqn:Hn.
  2:{ rewrite (copiler_no_name _ _ _ _ _ _ _ Hn) in H.
      injection H as <- <-. now apply Stop. }
  destruct (cached name w) as [existing|e] eqn:Hc.
  2:{ rewrite (copiler_no_lookup _ _ _ _ _ _ _ _ Hn Hc) in H.
      injection H as <- <-. now apply Stop. }
  rewrite (copiler_run _ _ _ _ _ _ _ _ Hn Hc) in H.
  destruct (force_copilation || negb (bool_of existing)).
  2:{ injection H as <- <-. now apply Stop. }
  destruct (generate_cases _ _ _ _ _ _ _ _ _ H)
    as [(_ & -> & ->)|(_ & [(_ & -> & ->)|(_ & Hl)])].
  - now apply Stop.
  - exists [Completion (clarity_request specification)
              (clarity_at specification w)].
    split; [reflexivity|]. split.
    + intros q a [[= <- <-]|[]]. now left.
    + split; [intros ? ? ? [[=]|[]] | simpl; lia].
  - destruct (generation_loop_requests _ _ _ _ _ _ _ _ _ _ _ _ Hl)
      as (evs & T & Ti & N).
    exists (Completion (clarity_request specification)
              (clarity_at specification w) :: evs).
    split; [|split; [|split]].
    + rewrite T. unfold after_clarity. simpl. now rewrite <- app_assoc.
    + intros q a [[= <- <-]|Hin]; [now left | right].
      destruct (Ti _ Hin) as [E|(answer & Ha & E)]; [now left | right].
      exists answer. split; [now right | exact E].
    + intros filename source name' [[=]|Hin] [= <-]. exact (Ti _ Hin).
    + unfold max_tries in N. simpl. simpl in N. lia.
Qed.

(* ================================================================== *)
(** ** The name [_parse_callable_name] finds *)
(* ================================================================== *)

(** [node.name] when [node] is a [FunctionDef] or a [ClassDef]. *)
Definition def_name (node : ast) : option string :=
  match node with
  | FunctionDef name _ => Some name
  | ClassDef name _ => Some name
  | _ => None
  end.

(** A function or class called [n] is defined at [node] or below it. *)
Inductive defines (n : string) : ast -> Prop :=
| defines_here node : def_name node = Some n -> defines n node
| defines_below node child :
    In child (iter_child_nodes node) ->
    defines n child ->
    defines n node.

Lemma first_def_step (fuel : nat) (node : ast) (rest : list ast) :
  first_def (S fuel) (node :: rest)
  = match def_name node with
    | Some name => Some name
    | None => first_def fuel (rest ++ iter_child_nodes node)
    end.
Proof. destruct node; reflexivity. Qed.

Lemma sizes_app (a b : list ast) : sizes (a ++ b) = (sizes a + sizes b)%nat.
Proof. unfold sizes. now rewrite map_app, list_sum_app. Qed.

Lemma sizes_cons (node : ast) (l : list ast) :
  sizes (node :: l) = (size node + sizes l)%nat.
Proof. reflexivity. Qed.

Lemma size_positive (node : ast) : (1 <= size node)%nat.
Proof. rewrite size_children. lia. Qed.

Lemma length_le_sizes (l : list ast) : (List.length l <= sizes l)%nat.
Proof.
  induction l as [|node l IH]; [apply le_n|].
  rewrite sizes_cons. pose proof (size_positive node). simpl. lia.
Qed.

(** The walk passes over the nodes at the front of the queue that define
    nothing and stops at the first one that does. *)
Lemma first_def_skips (n : string) (d : ast) (pre : list ast) :
  Forall (fun node => def_name node = None) pre ->
  def_name d = Some n ->
  forall (fuel : nat) (rest : list ast),
    (List.length pre < fuel)%nat ->
    first_def fuel (pre ++ d :: rest) = Some n.
Proof.
  intros Hpre Hd. induction Hpre as [|x pre Hx _ IH]; intros fuel rest L.
  - destruct fuel as [|fuel]; [lia|]. simpl app.
    now rewrite first_def_step, Hd.
  - destruct fuel as [|fuel]; [simpl in L; lia|]. simpl app.
    rewrite first_def_step, Hx, <- app_assoc. simpl app.
    apply IH. simpl in L. lia.
Qed.

(** What the walk returns is defined somewhere in the queue. *)
Lemma first_def_sound (n : string) (fuel : nat) :
  forall todo : list ast,
    first_def fuel todo = Some n ->
    exists node, In node todo /\ defines n node.
Proof.
  induction fuel as [|fuel IH]; intros todo H; [discriminate|].
  destruct todo as [|x rest]; [discriminate|].
  rewrite first_def_step in H. destruct (def_name x) as [m|] eqn:E.
  - injection H as ->. exists x. split; [now left | now apply defines_here].
  - destruct (IH _ H) as (node & Hin & Hd).
    apply in_app_or in Hin as [Hin|Hin].
    + exists node. split; [now right | exact Hd].
    + exists x. split; [now left | now apply (defines_below n x node)].
Qed.

(** With fuel for every node of the queue the walk finds a definition
    when there is one. *)
Lemma first_def_complete (fuel : nat) :
  forall todo : list ast,
    (sizes todo <= fuel)%nat ->
    (exists n node, In node todo /\ defines n node) ->
    first_def fuel todo <> None.
Proof.
  induction fuel as [|fuel IH]; intros todo L (n & node & Hin & Hd).
  - destruct todo as [|x rest]; [destruct Hin|].
    rewrite sizes_cons in L. pose proof (size_positive x). lia.
  - destruct todo as [|x rest]; [destruct Hin|].
    rewrite first_def_step. destruct (def_name x) as [m|] eqn:E;
      [discriminate|].
    apply IH.
    + rewrite sizes_cons, size_children in L. rewrite sizes_app. lia.
    + destruct Hin as [<-|Hin].
      * inversion Hd as [y Hy Ey|y child Hc Hd' Ey]; subst; [congruence|].
        exists n, child. split; [apply in_or_app; now right | exact Hd'].
      * exists n, node. split; [apply in_or_app; now left | exact Hd].
Qed.

Lemma walk_module (body : list ast) :
  walk_first_def (Module body) = first_def (sizes body) body.
Proof.
  unfold walk_first_def. rewrite size_children. reflexivity.
Qed.

(** X9.  [ast.walk] goes breadth first, so a function or class defined
    at the top level of the source gives the name, even when an earlier
    statement has a definition nested in it: the name is the one of the
    first top-level statement that is a [FunctionDef] or a [ClassDef]. *)
Theorem top_level_definition_names_the_callable (source_code n : string)
    (pre rest : list ast) (d : ast) :
  ast_parse source_code = Some (pre ++ d :: rest)%list ->
  Forall (fun node => def_name node = None) pre ->
  def_name d = Some n ->
  _parse_callable_name source_code = Return (Some n).
Proof.
  intros Hp Hpre Hd. unfold _parse_callable_name. rewrite Hp, walk_module.
  f_equal. apply first_def_skips; [exact Hpre | exact Hd|].
  pose proof (length_le_sizes (pre ++ d :: rest)) as L.
  rewrite length_app in L. simpl in L. lia.
Qed.

(** X10.  On a source that parses, [_parse_callable_name] returns the
    name of a function or class defined somewhere in the source, and
    [None] exactly when the source defines none at any depth.  Such a
    source is never turned into an object: [_source_to_object] raises
    (the error of [exec], or [KeyError] for the name [None]). *)
Theorem callable_name_is_a_definition (source_code : string)
    (body : list ast) :
  ast_parse source_code = Some body ->
  (forall n,
      _parse_callable_name source_code = Return (Some n) ->
      defines n (Module body))
  /\ (_parse_callable_name source_code = Return None
      <-> forall n, ~ defines n (Module body))
  /\ ((forall n, ~ defines n (Module body)) ->
      forall v, _source_to_object source_code <> Return v).
Proof.
  intros Hp.
  assert (E : _parse_callable_name source_code
              = Return (first_def (sizes body) body))
    by (unfold _parse_callable_name; now rewrite Hp, walk_module).
  assert (Below : forall n node,
            In node body -> defines n node -> defines n (Module body))
    by (intros n node Hin Hd; now apply (defines_below n (Module body) node)).
  assert (None_iff : first_def (sizes body) body = None
                     <-> forall n, ~ defines n (Module body)).
  { split.
    - intros H n Hd.
      inversion Hd as [x Hx Ex|x child Hc Hd' Ex]; subst; [discriminate|].
      apply (first_def_complete (sizes body) body (le_n _)); [|exact H].
      exists n, child. auto.
    - intros H. destruct (first_def (sizes body) body) as [n|] eqn:F;
        [|reflexivity].
      destruct (first_def_sound _ _ _ F) as (node & Hin & Hd).
      destruct (H n (Below _ _ Hin Hd)). }
  split; [|split].
  - intros n H. rewrite E in H. injection H as F.
    destruct (first_def_sound _ _ _ F) as (node & Hin & Hd). eauto.
  - rewrite E. rewrite <- None_iff. split; [now intros [= ->] | now intros ->].
  - intros H v. apply None_iff in H. unfold _source_to_object.
    rewrite E, H. destruct (exec source_code); discriminate.
Qed.

(* ================================================================== *)
(** ** Cleaning the answer and writing the cache file *)
(* ================================================================== *)

Lemma endswith_app (x suffix : string) : endswith (x ++ suffix) suffix = true.
Proof.
  unfold endswith. rewrite PyText.length_append.
  replace (String.length x + String.length suffix - String.length suffix)%nat
    with (String.length x) by lia.
  rewrite PyText.drop_app, String.eqb_refl, andb_true_r.
  apply Nat.leb_le. lia.
Qed.

Lemma endswith_other (x t suffix : string) :
  String.length t = String.length suffix ->
  t <> suffix ->
  endswith (x ++ t) suffix = false.
Proof.
  intros L N. unfold endswith. rewrite PyText.length_append, L.
  replace (String.length x + String.length suffix - String.length suffix)%nat
    with (String.length x) by lia.
  rewrite PyText.drop_app. apply String.eqb_neq in N. rewrite N.
  apply andb_false_r.
Qed.

Lemma drop_last_app (x suffix : string) :
  suffix <> EmptyString ->
  drop_last (String.length suffix) (x ++ suffix) = x.
Proof.
  intros N. unfold drop_last.
  destruct suffix as [|c suffix]; [now destruct N|].
  rewrite PyText.length_append.
  replace (String.length x + String.length (String c suffix)
           - String.length (String c suffix))%nat
    with (String.length x) by lia.
  simpl String.length. apply PyText.take_app.
Qed.

(** What is left of a text that ends with a code fence once the two
    suffixes have been tried. *)
Lemma strip_suffixes_fence (body : string) :
  fold_left
    (fun s suffix =>
       if endswith s suffix then drop_last (String.length suffix) s else s)
    ["'"; "```"] (body ++ "```")
  = body.
Proof.
  cbn [fold_left].
  replace (body ++ "```") with ((body ++ "``") ++ "`")
    by now rewrite PyText.append_assoc.
  rewrite endswith_other by (reflexivity || discriminate).
  replace ((body ++ "``") ++ "`") with (body ++ "```")
    by now rewrite PyText.append_assoc.
  rewrite endswith_app. now apply drop_last_app.
Qed.

(** X11.  An answer given as a fenced block, with the fence [```python]
    or [```json] on a line of its own before the code and the closing
    fence on a line of its own after it, is cleaned to the code without
    the white space around it.  And whatever the answer, the cleaned
    text neither starts nor ends with white space. *)
Theorem fenced_answer_is_unwrapped (code response : string) :
  _clean_response ("```python" ++ PyText.nl ++ code ++ PyText.nl ++ "```")
  = strip code
  /\ _clean_response ("```json" ++ PyText.nl ++ code ++ PyText.nl ++ "```")
     = strip code
  /\ PyText.starts_clean (_clean_response response)
  /\ PyText.ends_clean (_clean_response response).
Proof.
  assert (S : strip (PyText.nl ++ code ++ PyText.nl) = strip code).
  { unfold PyText.nl. simpl append.
    rewrite PyText.strip_cons_space by reflexivity.
    now apply PyText.strip_snoc_space. }
  assert (A : forall x : string,
            PyText.nl ++ code ++ PyText.nl ++ x
            = (PyText.nl ++ code ++ PyText.nl) ++ x)
    by (intros x; now rewrite !PyText.append_assoc).
  split; [|split].
  - unfold _clean_response, _strip_special.
    match goal with
    | |- strip (fold_left _ _ (fold_left ?f ?prefixes ?r)) = _ =>
        change (fold_left f prefixes r)
          with (PyText.nl ++ code ++ PyText.nl ++ "```")
    end.
    now rewrite A, strip_suffixes_fence.
  - unfold _clean_response, _strip_special.
    match goal with
    | |- strip (fold_left _ _ (fold_left ?f ?prefixes ?r)) = _ =>
        change (fold_left f prefixes r)
          with (PyText.nl ++ code ++ PyText.nl ++ "```")
    end.
    now rewrite A, strip_suffixes_fence.
  - apply PyText.strip_clean.
Qed.

(** *** [_move_imports_to_top] *)













(** *** [_rewrite_copiled_source] *)




(** *** [_write_copiled_source] on a new file *)


(** *** [load_list] and the text of the specification *)

(** [load_list(filename)] *)
Definition load_list (filename : string) : M (list string) :=
  text <- read_file filename ;;
  ret (PyText.splitlines text).

(** Lines 263 and 264 of [_copiler]:
    ['\n'.join(inspect.getsource(func).splitlines()[1:])]. *)
Definition specification_of (source : string) : string :=
  String.concat PyText.nl (tl (PyText.splitlines source)).

(** X15.  [load_list] reads back a list written one name to a line:
    when no name holds a line break, the file with each name followed
    by a newline gives the names, in order, empty names included.  A
    missing file raises [FileNotFoundError]. *)
Theorem load_list_reads_names_back (filename : string) (names : list string)
    (w : world) :
  Forall (fun name => PyText.free_of PyText.is_linebreak name = true) names ->
  (files w filename
   = Some (String.concat EmptyString
             (map (fun name => (name ++ PyText.nl)%string) names)) ->
   load_list filename w = (Return names, w))
  /\ (files w filename = None ->
      load_list filename w = (Raise FileNotFoundError, w)).
Proof.
  intros F. unfold load_list, bind, read_file, ret. split; intros ->.
  - now rewrite (PyText.splitlines_lines _ F).
  - reflexivity.
Qed.

(** X16.  The specification is the source of the decorated function
    without its first line, the line of the decorator, and without the
    last newline: for a source whose lines each end with a newline, it
    is the lines after the first joined by newlines. *)
Theorem specification_drops_first_line (first : string)
    (lines : list string) :
  PyText.free_of PyText.is_linebreak first = true ->
  Forall (fun line => PyText.free_of PyText.is_linebreak line = true)
    lines ->
  specification_of
    (first ++ PyText.nl
     ++ String.concat EmptyString
          (map (fun line => (line ++ PyText.nl)%string) lines))
  = String.concat PyText.nl lines.
Proof.
  intros F1 F. unfold specification_of, PyText.splitlines.
  rewrite (PyText.splitlines_from_line _ _ F1). simpl tl.
  now rewrite (PyText.splitlines_lines _ F).
Qed.

End Program.

End Copilation.

(* ================================================================== *)
(** ** A small interpreter, a scripted model and sample runs *)
(* ================================================================== *)

(** The theorems above hold for every parser, interpreter and language
    model.  Here they are applied to one of each: a parser and an
    interpreter that know five short sources, and a model that reads its
    answers from a script. *)
Module Sample.

Import PyStr PySet PyAst Copilation.

Definition nl : string := String "010" EmptyString.

(** The decorated stub without its decorator line. *)
Definition specification : string :=
  "def add(a, b):" ++ nl ++ "    '''Return the sum of a and b.'''".

Definition good_source : string :=
  "def add(a, b):" ++ nl ++ "    return a + b".

Definition broken_source : string := "def add(a, b:".

Definition no_def_source : string := "x = 1".

Definition eval_source : string :=
  "def add(a, b):" ++ nl ++ "    return eval('a + b')".

Definition os_source : string :=
  "import os" ++ nl ++ "def add(a, b):" ++ nl ++ "    return a + b".

(** [arguments(args=[arg('a'), arg('b')])] *)
Definition arguments_a_b : ast := Other [Other []; Other []].

(** [Return(BinOp(Name('a'), Add(), Name('b')))] *)
Definition return_a_plus_b : ast :=
  Other [Other [Name "a"; Other []; Name "b"]].

Definition ast_parse (text : string) : option (list ast) :=
  if String.eqb text specification
  then Some [FunctionDef "add" [arguments_a_b; Other [Other []]]]
  else if String.eqb text good_source
  then Some [FunctionDef "add" [arguments_a_b; return_a_plus_b]]
  else if String.eqb text no_def_source
  then Some [Other [Name "x"; Other []]]
  else if String.eqb text eval_source
  then Some [FunctionDef "add"
               [arguments_a_b; Other [Call (Name "eval") [Other []]]]]
  else if String.eqb text os_source
  then Some [Other [Other []];
             FunctionDef "add" [arguments_a_b; return_a_plus_b]]
  else None.

(** An object is named by the text that defined it. *)
Definition exec (text : string) : result (string -> option (pyval string)) :=
  match ast_parse text with
  | None => Raise SyntaxError
  | Some _ =>
      if String.eqb text no_def_source
      then Return (fun n => if String.eqb n "x"
                            then Some (PyObject "1") else None)
      else Return (fun n => if String.eqb n "add"
                            then Some (PyObject text) else None)
  end.

Definition exec_module (text : string)
  : result (string -> option (pyval string)) :=
  exec (strip text).

(** Both formatters trim the file and end it with a newline. *)
Definition formatter (text : string) : result string :=
  Return (strip text ++ nl).

Definition no_inspect {A : Type} (text name : string) : result A :=
  Raise (OtherException "OSError").

Definition module_blacklist_txt : list string := ["os"; "subprocess"].

Definition function_blacklist_txt : list string := ["eval"; "exec"].

(** The model answers a clarity check with [clarity], a safety check
    with [safety], and the n-th request for an implementation with the
    n-th text of [candidates]. *)
Definition oracle (clarity : string) (candidates : list string)
    (safety : string) (history : list request) (q : request) : string :=
  match system q with
  | assess_specification => clarity
  | check_for_safety_issues => safety
  | _ =>
      nth (List.length
             (filter (fun q' => match system q' with
                                | copile_from_specification => true
                                | _ => false
                                end) history))
        candidates EmptyString
  end.

Definition truthy (o : string) : bool := true.

Definition w0 : world := {| files := fun _ => None; trace := [] |}.

Definition copiler (clarity : string) (candidates : list string)
    (safety : string) (force : bool) (mw fw uo : list string) (w : world)
  : result (pyval string) * world :=
  _copiler string truthy (oracle clarity candidates safety) ast_parse exec
    exec_module no_inspect no_inspect formatter formatter
    module_blacklist_txt function_blacklist_txt
    specification force (StrList mw) (StrList fw) (StrList uo) w.

Definition gate (safety : string) (source : string) (mw fw uo : list string)
  : result unit * world :=
  _review_safety (oracle "CLEAR" [] safety) ast_parse
    module_blacklist_txt function_blacklist_txt source mw fw uo w0.

Definition fenced (source : string) : string :=
  "```python" ++ nl ++ source ++ nl ++ "```".

(** A first call on an empty cache, and a second call after it. *)
Definition first_call : result (pyval string) * world :=
  copiler "CLEAR" [fenced good_source] "NONE" false [] [] [] w0.


(** A call whose first candidate does not parse. *)
Definition broken_then_good : result (pyval string) * world :=
  copiler "CLEAR" [broken_source; good_source] "NONE" false [] [] [] w0.

(** *** The gate on the samples *)

(** C2 at [os_source], [eval_source] and [good_source]. *)
Lemma safety_gate_order_witness :
  gate "NONE" os_source [] [] []
  = (Raise (BlackListedModuleImportError os_source ["os"]), w0)
  /\ gate "NONE" eval_source [] [] []
     = (Raise (BlackListedFunctionUseError eval_source ["eval"]), w0)
  /\ gate "FILE_WRITE" good_source [] [] []
     = (Raise (CopiledSourceDeemedUnsafeError good_source ["FILE_WRITE"]),
        log (Completion (safety_request good_source) "FILE_WRITE") w0).
Proof.
  split; [|split].
  - apply (safety_gate_order (oracle "CLEAR" [] "NONE") ast_parse
             module_blacklist_txt function_blacklist_txt os_source
             [] [] [] w0).
    discriminate.
  - apply (safety_gate_order (oracle "CLEAR" [] "NONE") ast_parse
             module_blacklist_txt function_blacklist_txt eval_source
             [] [] [] w0); [reflexivity | reflexivity | discriminate].
  - apply (safety_gate_order (oracle "CLEAR" [] "FILE_WRITE") ast_parse
             module_blacklist_txt function_blacklist_txt good_source
             [] [] [] w0); [reflexivity | reflexivity |].
    vm_compute. discriminate.
Defined.

(** C6 at [os_source], without and with [os] on the whitelist. *)
Lemma module_scan_reports_unless_whitelisted_witness :
  In "os" module_blacklist_txt
  /\ os_source = EmptyString ++ ("import " ++ "os")
                 ++ (nl ++ "def add(a, b):" ++ nl ++ "    return a + b")
  /\ (In "os" (check_for_blacklisted_modules_used os_source
                 (module_blacklist module_blacklist_txt []))
      /\ gate "NONE" os_source [] [] []
         = (Raise (BlackListedModuleImportError os_source
                     (check_for_blacklisted_modules_used os_source
                        (module_blacklist module_blacklist_txt []))), w0))
  /\ ~ In "os" (check_for_blacklisted_modules_used os_source
                  (module_blacklist module_blacklist_txt ["os"])).
Proof.
  assert (Hin : In "os" module_blacklist_txt) by (now left).
  assert (Hs : (exists a b, os_source = a ++ ("import " ++ "os") ++ b)
               \/ (exists a b,
                     os_source = a ++ ("from " ++ "os" ++ " import") ++ b)).
  { left. exists EmptyString, (nl ++ "def add(a, b):" ++ nl
                               ++ "    return a + b"). reflexivity. }
  split; [exact Hin|]. split; [reflexivity|]. split.
  - apply (module_scan_reports_unless_whitelisted (oracle "CLEAR" [] "NONE")
             ast_parse module_blacklist_txt function_blacklist_txt
             os_source "os" [] [] [] w0 Hin Hs).
    intros [].
  - apply (module_scan_reports_unless_whitelisted (oracle "CLEAR" [] "NONE")
             ast_parse module_blacklist_txt function_blacklist_txt
             os_source "os" ["os"] [] [] w0 Hin Hs).
    now left.
Defined.

(** C10 at [os_source]. *)
Lemma module_scan_is_substring_test_witness :
  In "os" module_blacklist_txt
  /\ ~ In "os" []
  /\ (In "os" (check_for_blacklisted_modules_used os_source
                 (module_blacklist module_blacklist_txt []))
      <-> (exists a b, os_source = a ++ ("import " ++ "os") ++ b)
          \/ (exists a b,
                os_source = a ++ ("from " ++ "os" ++ " import") ++ b))
  /\ In "os" (check_for_blacklisted_modules_used "import osmodule"
                (module_blacklist module_blacklist_txt []))
  /\ In "os" (check_for_blacklisted_modules_used "# import os"
                (module_blacklist module_blacklist_txt [])).
Proof.
  assert (Hin : In "os" module_blacklist_txt) by (now left).
  assert (Hw : ~ In "os" []) by (intros []).
  destruct (module_scan_is_substring_test module_blacklist_txt os_source
              "os" [] Hin Hw) as [A B].
  split; [exact Hin|]. split; [exact Hw|]. split; [exact A|].
  exact (B eq_refl).
Defined.

(** C7 at [eval_source]. *)
Lemma function_scan_reports_bare_calls_witness :
  ast_parse eval_source
  = Some [FunctionDef "add"
            [arguments_a_b; Other [Call (Name "eval") [Other []]]]]
  /\ check_for_blacklisted_functions_used ast_parse eval_source
       (function_blacklist function_blacklist_txt []) = Return ["eval"]
  /\ gate "NONE" eval_source [] [] []
     = (Raise (BlackListedFunctionUseError eval_source ["eval"]), w0).
Proof.
  destruct (function_scan_reports_bare_calls (oracle "CLEAR" [] "NONE")
              ast_parse module_blacklist_txt function_blacklist_txt
              eval_source
              [FunctionDef "add"
                 [arguments_a_b; Other [Call (Name "eval") [Other []]]]]
              [] [] [] w0 eq_refl)
    as (found & Hf & _ & _ & _ & _ & Hg).
  vm_compute in Hf. injection Hf as <-.
  split; [reflexivity|]. split; [reflexivity|].
  apply Hg. split; [reflexivity | discriminate].
Defined.

(** C9 at [good_source] with the answer [FILE_WRITE, NONE] and the
    override [FILE_WRITE]. *)
Lemma semantic_gate_by_labels_witness :
  check_for_blacklisted_modules_used good_source
    (module_blacklist module_blacklist_txt []) = []
  /\ check_for_blacklisted_functions_used ast_parse good_source
       (function_blacklist function_blacklist_txt []) = Return []
  /\ (len good_source <= max_characters (models best))%Z
  /\ fst (gate "FILE_WRITE, NONE" good_source [] [] ["FILE_WRITE"])
     = Return tt.
Proof.
  assert (L : (len good_source <= max_characters (models best))%Z)
    by (vm_compute; discriminate).
  split; [reflexivity|]. split; [reflexivity|]. split; [exact L|].
  apply (semantic_gate_by_labels (oracle "CLEAR" [] "FILE_WRITE, NONE")
           ast_parse module_blacklist_txt function_blacklist_txt
           good_source [] [] ["FILE_WRITE"] w0 eq_refl eq_refl L);
    reflexivity.
Defined.

(** *** Calls of [_copiler] on the samples *)

(** C1 at the first call on an empty cache: the object returned comes
    from a candidate that was checked and written. *)
Lemma candidate_checked_before_use_witness :
  first_call = (fst first_call, snd first_call)
  /\ fst first_call = Return (PyObject good_source)
  /\ exists source answer,
       passes ast_parse module_blacklist_txt function_blacklist_txt
         [] [] [] source answer
       /\ _source_to_object string ast_parse exec source
          = Return (PyObject good_source)
       /\ In (Completion (safety_request source) answer)
            (trace (snd first_call))
       /\ In (WriteCopiled (copilations_path (Some "add")) source)
            (trace (snd first_call)).
Proof.
  assert (H : first_call = (fst first_call, snd first_call))
    by apply surjective_pairing.
  split; [exact H|]. split; [reflexivity|].
  destruct (candidate_checked_before_use string truthy
              (oracle "CLEAR" [fenced good_source] "NONE") ast_parse exec
              exec_module no_inspect no_inspect formatter formatter
              module_blacklist_txt function_blacklist_txt
              specification false (StrList []) (StrList []) (StrList [])
              w0 (snd first_call) (fst first_call) H)
    as (evs & T & _ & _ & _ & R).
  destruct (R (Some "add") PyNone good_source eq_refl eq_refl eq_refl
              eq_refl) as (source & answer & Hok & So & Hj & Hw).
  exists source, answer. rewrite T. simpl. auto.
Defined.

(** C8 at a call whose clarity check answers [UNCLEAR: ...]. *)
Lemma unclear_specification_stops_witness :
  _parse_callable_name ast_parse specification = Return (Some "add")
  /\ cached string exec_module (Some "add") w0 = Return PyNone
  /\ fst (copiler "UNCLEAR: add what?" [good_source] "NONE" false [] [] [] w0)
     = Raise (SpecificationUnclearError (Some "add") "UNCLEAR: add what?")
  /\ trace (snd (copiler "UNCLEAR: add what?" [good_source] "NONE" false
                   [] [] [] w0))
     = [Completion (clarity_request specification) "UNCLEAR: add what?"].
Proof.
  split; [reflexivity|]. split; [reflexivity|].
  destruct (unclear_specification_stops string truthy
              (oracle "UNCLEAR: add what?" [good_source] "NONE") ast_parse
              exec exec_module no_inspect no_inspect formatter formatter
              module_blacklist_txt function_blacklist_txt
              specification false (StrList []) (StrList []) (StrList [])
              w0 _ _ (Some "add") PyNone eq_refl eq_refl eq_refl
              (surjective_pairing _))
    as (evs & T & _ & C).
  destruct C as (rest & -> & _ & U); [vm_compute; discriminate|].
  destruct (U eq_refl) as [Hr ->].
  split; [exact Hr | exact T].
Defined.

(** C4 as amended, at two calls: the first candidate defines nothing
    both times; the second one defines nothing either, or is good. *)
Lemma retry_after_failed_load_witness :
  copiler "CLEAR" [no_def_source; no_def_source] "NONE" false [] [] [] w0
  = (Return PyNone,
     {| files := fun _ => None;
        trace :=
          [Completion (clarity_request specification) "CLEAR";
           Completion (generate_request specification) no_def_source;
           Completion (safety_request no_def_source) "NONE";
           Completion (generate_request specification) no_def_source;
           Completion (safety_request no_def_source) "NONE";
           Print bad_source_line;
           Print no_def_source] |})
  /\ fst (copiler "CLEAR" [no_def_source; good_source] "NONE" false
            [] [] [] w0)
     = Return (PyObject good_source)
  /\ requests_with copile_from_specification
       (trace (snd (copiler "CLEAR" [no_def_source; good_source] "NONE"
                      false [] [] [] w0)))
     = [generate_request specification; generate_request specification].
Proof.
  assert (L : (len specification <= max_characters (models best))%Z)
    by (vm_compute; discriminate).
  assert (N : forall module_name : string,
             KeyError <> ModuleNotFoundError module_name)
    by discriminate.
  assert (S : forall candidates w,
             (len (candidate_at (oracle "CLEAR" candidates "NONE")
                     specification w) <= max_characters (models best))%Z ->
             passes ast_parse module_blacklist_txt function_blacklist_txt
               [] [] []
               (candidate_at (oracle "CLEAR" candidates "NONE")
                  specification w) "NONE" ->
             safe_candidate (oracle "CLEAR" candidates "NONE") ast_parse
               module_blacklist_txt function_blacklist_txt specification
               [] [] [] w)
    by (intros candidates w Hl Hp; split; assumption).
  split.
  - destruct (retry_after_failed_load string truthy
                (oracle "CLEAR" [no_def_source; no_def_source] "NONE")
                ast_parse exec exec_module no_inspect no_inspect formatter
                formatter module_blacklist_txt function_blacklist_txt
                specification false (StrList []) (StrList []) (StrList [])
                w0 (Some "add") PyNone KeyError eq_refl eq_refl eq_refl L
                eq_refl) as [A _].
    + apply S; [vm_compute; discriminate | repeat split].
    + reflexivity.
    + exact N.
    + apply S; [vm_compute; discriminate | repeat split].
    + apply (A KeyError eq_refl N).
  - destruct (retry_after_failed_load string truthy
                (oracle "CLEAR" [no_def_source; good_source] "NONE")
                ast_parse exec exec_module no_inspect no_inspect formatter
                formatter module_blacklist_txt function_blacklist_txt
                specification false (StrList []) (StrList []) (StrList [])
                w0 (Some "add") PyNone KeyError eq_refl eq_refl eq_refl L
                eq_refl) as [_ B].
    + apply S; [vm_compute; discriminate | repeat split].
    + reflexivity.
    + exact N.
    + apply S; [vm_compute; discriminate | repeat split].
    + destruct (B (PyObject good_source)
                  (snd (copiler "CLEAR" [no_def_source; good_source] "NONE"
                          false [] [] [] w0)))
        as (Hrun & _ & Hreq); [reflexivity|].
      split; [exact (f_equal fst Hrun) | exact Hreq].
Defined.


(** *** Where the code differs from the specification *)

(** C4 as stated fails: the first candidate does not parse, the second
    is good.  The call does not return the object of the second
    candidate after two requests for an implementation: the function
    scan of the gate raises [SyntaxError] on the first candidate, after
    one request. *)
Lemma unparsable_candidate_is_not_retried :
  fst broken_then_good = Raise SyntaxError
  /\ fst broken_then_good <> Return (PyObject good_source)
  /\ requests_with copile_from_specification (trace (snd broken_then_good))
     = [generate_request specification]
  /\ trace (snd broken_then_good)
     = [Completion (clarity_request specification) "CLEAR";
        Completion (generate_request specification) broken_source].
Proof.
  split; [reflexivity|]. split; [discriminate|].
  split; reflexivity.
Qed.


(** C3 on the two model tiers: no request is sent and the call raises. *)
Example oversize_input_on_both_tiers :
  let comment := repeat_char "a" (Z.to_nat 460801) in
  _get_completion (oracle "CLEAR" [] "NONE") comment assess_specification
    fast w0 = (Raise AttributeError, w0)
  /\ _get_completion (oracle "CLEAR" [] "NONE") comment
       check_for_safety_issues best w0 = (Raise AttributeError, w0).
Proof.
  intros comment.
  assert (L : forall c, (len comment > max_characters (models c))%Z).
  { intros c. unfold comment. rewrite len_repeat_char, Z2Nat.id by lia.
    destruct c; reflexivity. }
  split; apply get_completion_over, L.
Qed.

(** *** More samples *)

(** A source that needs a module which is not installed, and a source
    with a definition nested in its first statement. *)
Definition numpy_source : string :=
  "import numpy" ++ nl ++ "def add(a, b):" ++ nl
  ++ "    return numpy.add(a, b)".

Definition nested_source : string :=
  "if True:" ++ nl ++ "    def inner(): pass" ++ nl ++ "def outer(): pass".

Definition parse_more (text : string) : option (list ast) :=
  if String.eqb text numpy_source
  then Some [Other [Other []];
             FunctionDef "add"
               [arguments_a_b;
                Other [Call (Attribute (Name "numpy") "add")
                         [Name "a"; Name "b"]]]]
  else if String.eqb text nested_source
  then Some [Other [Other [];
                    FunctionDef "inner" [Other []; Other []]];
             FunctionDef "outer" [Other []; Other []]]
  else ast_parse text.

Definition exec_more (text : string)
  : result (string -> option (pyval string)) :=
  if String.eqb text numpy_source
  then Raise (ModuleNotFoundError "numpy")
  else exec text.





Definition one_file (path text : string) : world :=
  {| files := fun p => if String.eqb p path then Some text else None;
     trace := [] |}.


(** X1 at a commented import. *)
Lemma module_scan_survives_wrapping_witness :
  In "os" (check_for_blacklisted_modules_used "import os" ["os"])
  /\ In "os" (check_for_blacklisted_modules_used
               ("# " ++ "import os" ++ " as o") ["os"]).
Proof.
  assert (H : In "os" (check_for_blacklisted_modules_used "import os" ["os"]))
    by (now left).
  split; [exact H|].
  apply (module_scan_survives_wrapping "import os" "# " " as o" ["os"] "os" H).
Defined.

(** X2 at [os_source] and [eval_source]. *)
Lemma whitelists_only_remove_reports_witness :
  incl [] ["os"] /\ incl [] ["eval"]
  /\ incl (check_for_blacklisted_modules_used os_source
             (module_blacklist module_blacklist_txt ["os"]))
          (check_for_blacklisted_modules_used os_source
             (module_blacklist module_blacklist_txt []))
  /\ check_for_blacklisted_modules_used os_source
       (module_blacklist module_blacklist_txt ["os"; "subprocess"]) = [].
Proof.
  assert (H1 : incl (@nil string) ["os"]) by (intros x []).
  assert (H2 : incl (@nil string) ["eval"]) by (intros x []).
  assert (H3 : incl (@nil string) ["os"; "subprocess"]) by (intros x []).
  destruct (whitelists_only_remove_reports ast_parse module_blacklist_txt
              function_blacklist_txt os_source [] ["os"] [] ["eval"] H1 H2)
    as (A & _).
  destruct (whitelists_only_remove_reports ast_parse module_blacklist_txt
              function_blacklist_txt os_source [] ["os"; "subprocess"]
              [] ["eval"] H3 H2) as (_ & _ & B & _).
  split; [exact H1|]. split; [exact H2|]. split; [exact A|].
  apply B. apply incl_refl.
Defined.

(** X3 at [good_source]. *)
Lemma gate_pass_survives_broader_overrides_witness :
  gate "NONE" good_source [] [] []
  = (Return tt, log (Completion (safety_request good_source) "NONE") w0)
  /\ gate "NONE" good_source ["os"] ["eval"] ["FILE_WRITE"]
     = (Return tt, log (Completion (safety_request good_source) "NONE") w0).
Proof.
  assert (H : gate "NONE" good_source [] [] []
              = (Return tt,
                 log (Completion (safety_request good_source) "NONE") w0))
    by reflexivity.
  split; [exact H|].
  apply (gate_pass_survives_broader_overrides (oracle "CLEAR" [] "NONE")
           ast_parse module_blacklist_txt function_blacklist_txt good_source
           [] ["os"] [] ["eval"] [] ["FILE_WRITE"] w0 _ H);
    intros x [].
Defined.

(** X4 at the call whose first candidate does not parse. *)
Lemma gate_error_ends_the_call_witness :
  _review_safety (oracle "CLEAR" [broken_source; good_source] "NONE")
    ast_parse module_blacklist_txt function_blacklist_txt
    broken_source [] [] []
    (after_asking (oracle "CLEAR" [broken_source; good_source] "NONE")
       specification
       (after_clarity (oracle "CLEAR" [broken_source; good_source] "NONE")
          specification w0))
  = (Raise SyntaxError, snd broken_then_good)
  /\ broken_then_good = (Raise SyntaxError, snd broken_then_good).
Proof.
  assert (L : (len specification <= max_characters (models best))%Z)
    by (vm_compute; discriminate).
  split; [reflexivity|].
  apply (gate_error_ends_the_call string truthy
           (oracle "CLEAR" [broken_source; good_source] "NONE") ast_parse
           exec exec_module no_inspect no_inspect formatter formatter
           module_blacklist_txt function_blacklist_txt specification false
           (StrList []) (StrList []) (StrList []) w0 (snd broken_then_good)
           (Some "add") PyNone SyntaxError eq_refl eq_refl eq_refl L eq_refl
           eq_refl).
Defined.

(** X5 at a candidate that imports [numpy]. *)
Lemma missing_module_ends_the_call_witness :
  _source_to_object string parse_more exec_more numpy_source
  = Raise (ModuleNotFoundError "numpy")
  /\ fst (_copiler string truthy (oracle "CLEAR" [numpy_source] "NONE")
            parse_more exec_more exec_module no_inspect no_inspect formatter
            formatter module_blacklist_txt function_blacklist_txt
            specification false (StrList []) (StrList []) (StrList []) w0)
     = Raise (CopiledSourceCodeNeedsModule "numpy").
Proof.
  assert (L : (len specification <= max_characters (models best))%Z)
    by (vm_compute; discriminate).
  split; [reflexivity|].
  rewrite (missing_module_ends_the_call string truthy
             (oracle "CLEAR" [numpy_source] "NONE") parse_more exec_more
             exec_module no_inspect no_inspect formatter formatter
             module_blacklist_txt function_blacklist_txt specification false
             (StrList []) (StrList []) (StrList []) w0 (Some "add") PyNone
             "numpy" eq_refl eq_refl eq_refl L eq_refl).
  - reflexivity.
  - split; [vm_compute; discriminate | repeat split].
  - reflexivity.
Defined.

(** X6 at the first call on an empty cache. *)
Lemma first_candidate_accepted_witness :
  first_call = (Return (PyObject good_source), snd first_call)
  /\ asked (trace (snd first_call))
     = [clarity_request specification; generate_request specification;
        safety_request good_source].
Proof.
  assert (L : (len specification <= max_characters (models best))%Z)
    by (vm_compute; discriminate).
  destruct (first_candidate_accepted string truthy
              (oracle "CLEAR" [fenced good_source] "NONE") ast_parse exec
              exec_module no_inspect no_inspect formatter formatter
              module_blacklist_txt function_blacklist_txt specification false
              (StrList []) (StrList []) (StrList []) w0 (snd first_call)
              (Some "add") PyNone (PyObject good_source) eq_refl eq_refl
              eq_refl L eq_refl) as (A & _ & _).
  - split; [vm_compute; discriminate | repeat split].
  - reflexivity.
  - split; [exact A | reflexivity].
Defined.

(** X7 at a forced call whose specification does not parse. *)
Lemma early_errors_leave_no_trace_witness :
  _parse_callable_name ast_parse broken_source = Raise SyntaxError
  /\ _copiler string truthy (oracle "CLEAR" [good_source] "NONE") ast_parse
       exec exec_module no_inspect no_inspect formatter formatter
       module_blacklist_txt function_blacklist_txt broken_source true
       (StrList []) (StrList []) (StrList []) w0
     = (Raise SyntaxError, w0).
Proof.
  split; [reflexivity|].
  apply early_errors_leave_no_trace. left. reflexivity.
Defined.

(** X8 at the first call on an empty cache. *)
Lemma requests_of_a_call_witness :
  first_call = (fst first_call, snd first_call)
  /\ (List.length (asked (trace (snd first_call))) <= 5)%nat
  /\ forall filename source,
       In (WriteCopiled filename source) (trace (snd first_call)) ->
       filename = copilations_path (Some "add").
Proof.
  assert (H : first_call = (fst first_call, snd first_call))
    by apply surjective_pairing.
  split; [exact H|].
  destruct (requests_of_a_call string truthy
              (oracle "CLEAR" [fenced good_source] "NONE") ast_parse exec
              exec_module no_inspect no_inspect formatter formatter
              module_blacklist_txt function_blacklist_txt specification false
              (StrList []) (StrList []) (StrList []) w0 (snd first_call)
              (fst first_call) H) as (evs & T & _ & Wr & N).
  assert (E : trace (snd first_call) = evs) by exact T.
  rewrite E. split; [exact N|].
  intros filename source Hin. exact (Wr filename source (Some "add") Hin eq_refl).
Defined.

(** X9 at a source whose first statement holds a nested definition. *)
Lemma top_level_definition_names_the_callable_witness :
  parse_more nested_source
  = Some [Other [Other []; FunctionDef "inner" [Other []; Other []]];
          FunctionDef "outer" [Other []; Other []]]
  /\ _parse_callable_name parse_more nested_source = Return (Some "outer").
Proof.
  split; [reflexivity|].
  apply (top_level_definition_names_the_callable parse_more nested_source
           "outer"
           [Other [Other []; FunctionDef "inner" [Other []; Other []]]]
           [] (FunctionDef "outer" [Other []; Other []]));
    [reflexivity | repeat constructor | reflexivity].
Defined.

(** X10 at a source that defines nothing. *)
Lemma callable_name_is_a_definition_witness :
  ast_parse no_def_source = Some [Other [Name "x"; Other []]]
  /\ (forall n, ~ defines n (Module [Other [Name "x"; Other []]]))
  /\ forall v, _source_to_object string ast_parse exec no_def_source
               <> Return v.
Proof.
  destruct (callable_name_is_a_definition string ast_parse exec
              no_def_source [Other [Name "x"; Other []]] eq_refl)
    as (_ & B & C).
  assert (N : forall n, ~ defines n (Module [Other [Name "x"; Other []]]))
    by (apply B; reflexivity).
  split; [reflexivity|]. split; [exact N | exact (C N)].
Defined.




(** X15 at a list with an empty line. *)
Lemma load_list_reads_names_back_witness :
  Forall (fun name => PyText.free_of PyText.is_linebreak name = true)
    ["os"; EmptyString; "sys"]
  /\ load_list "module_blacklist.txt"
       (one_file "module_blacklist.txt"
          ("os" ++ nl ++ nl ++ "sys" ++ nl))
     = (Return ["os"; EmptyString; "sys"],
        one_file "module_blacklist.txt" ("os" ++ nl ++ nl ++ "sys" ++ nl)).
Proof.
  assert (F : Forall
                (fun name => PyText.free_of PyText.is_linebreak name = true)
                ["os"; EmptyString; "sys"])
    by (repeat constructor).
  split; [exact F|].
  apply (load_list_reads_names_back "module_blacklist.txt"
           ["os"; EmptyString; "sys"]
           (one_file "module_blacklist.txt"
              ("os" ++ nl ++ nl ++ "sys" ++ nl)) F).
  reflexivity.
Defined.

(** X16 at the decorated stub of the samples. *)
Lemma specification_drops_first_line_witness :
  PyText.free_of PyText.is_linebreak "@copile" = true
  /\ specification_of
       ("@copile" ++ nl ++ "def add(a, b):" ++ nl
        ++ "    '''Return the sum of a and b.'''" ++ nl)
     = specification.
Proof.
  split; [reflexivity|].
  apply (specification_drops_first_line "@copile"
           ["def add(a, b):"; "    '''Return the sum of a and b.'''"]);
    [reflexivity | repeat constructor].
Defined.

End Sample.
